(** * envoy-api: request signing, key derivation and payload decryption

    A shallow embedding of [main.py] (the FastAPI gateway) together with the
    primitives it calls: SHA-256, HMAC, HKDF, URL-safe base64 and the Fernet
    token format (AES-128-CBC with PKCS7 padding and an HMAC-SHA256 tag).

    Byte strings ([bytes]) are lists of [byte]; Python [str] values that
    come from HTTP headers are [string]s (one 8-bit character per latin-1
    code point, which is how the framework decodes header values). *)

From Stdlib Require Import List NArith ZArith Lia Bool String Ascii Btauto DecimalString.
From Stdlib Require Strings.Byte.
Import Corelib.Init.Byte.
Import ListNotations.


(** ** Bytes *)

Definition bytes := list byte.

(** The byte of a number, reduced modulo 256 (C's [unsigned char] cast). *)
Definition byte_of_N (n : N) : byte :=
  match Byte.of_N (n mod 256) with
  | Some b => b
  | None => x00
  end.

(** Every byte, in increasing order. *)
Definition all_bytes : bytes := map (fun n => byte_of_N (N.of_nat n)) (seq 0 256).

Definition xor_bits (p q : bool * (bool * (bool * (bool * (bool * (bool * (bool * bool)))))))
  : bool * (bool * (bool * (bool * (bool * (bool * (bool * bool)))))) :=
  let '(p0, (p1, (p2, (p3, (p4, (p5, (p6, p7))))))) := p in
  let '(q0, (q1, (q2, (q3, (q4, (q5, (q6, q7))))))) := q in
  (xorb p0 q0, (xorb p1 q1, (xorb p2 q2, (xorb p3 q3,
   (xorb p4 q4, (xorb p5 q5, (xorb p6 q6, xorb p7 q7))))))).

(** Bitwise exclusive or of two bytes. *)
Definition bxor (a b : byte) : byte :=
  of_bits (xor_bits (to_bits a) (to_bits b)).

(** [n.to_bytes(k, "big")] for a number that fits; the caller bounds [n]. *)
Fixpoint be_bytes (k : nat) (n : N) : bytes :=
  match k with
  | O => []
  | S k' => be_bytes k' (N.shiftr n 8) ++ [byte_of_N n]
  end.

(** [int.from_bytes(l, "big")]. *)
Definition be_value (l : bytes) : N :=
  fold_left (fun acc b => N.lor (N.shiftl acc 8) (Byte.to_N b)) l 0%N.

Definition bytes_eqb (a b : bytes) : bool :=
  if list_eq_dec Byte.byte_eq_dec a b then true else false.

(** ** SHA-256 (FIPS 180-4), the digest behind [hashlib.sha256] *)

Module SHA256.
Local Open Scope N_scope.

Definition mask32 : N := 0xffffffff.
Definition wrap (x : N) : N := N.land x mask32.
Definition plus (x y : N) : N := wrap (x + y).
Definition rotr (n x : N) : N := N.lor (N.shiftr x n) (wrap (N.shiftl x (32 - n))).
Definition neg (x : N) : N := N.lxor x mask32.

Definition choose (x y z : N) : N := N.lxor (N.land x y) (N.land (neg x) z).
Definition majority (x y z : N) : N :=
  N.lxor (N.lxor (N.land x y) (N.land x z)) (N.land y z).
Definition big_sigma0 (x : N) : N := N.lxor (N.lxor (rotr 2 x) (rotr 13 x)) (rotr 22 x).
Definition big_sigma1 (x : N) : N := N.lxor (N.lxor (rotr 6 x) (rotr 11 x)) (rotr 25 x).
Definition small_sigma0 (x : N) : N := N.lxor (N.lxor (rotr 7 x) (rotr 18 x)) (N.shiftr x 3).
Definition small_sigma1 (x : N) : N := N.lxor (N.lxor (rotr 17 x) (rotr 19 x)) (N.shiftr x 10).

(** Round constants, eight per row. *)
Definition round_constants : list N :=
  [0x428a2f98; 0x71374491; 0xb5c0fbcf; 0xe9b5dba5; 0x3956c25b; 0x59f111f1; 0x923f82a4; 0xab1c5ed5]
  ++ [0xd807aa98; 0x12835b01; 0x243185be; 0x550c7dc3; 0x72be5d74; 0x80deb1fe; 0x9bdc06a7; 0xc19bf174]
  ++ [0xe49b69c1; 0xefbe4786; 0x0fc19dc6; 0x240ca1cc; 0x2de92c6f; 0x4a7484aa; 0x5cb0a9dc; 0x76f988da]
  ++ [0x983e5152; 0xa831c66d; 0xb00327c8; 0xbf597fc7; 0xc6e00bf3; 0xd5a79147; 0x06ca6351; 0x14292967]
  ++ [0x27b70a85; 0x2e1b2138; 0x4d2c6dfc; 0x53380d13; 0x650a7354; 0x766a0abb; 0x81c2c92e; 0x92722c85]
  ++ [0xa2bfe8a1; 0xa81a664b; 0xc24b8b70; 0xc76c51a3; 0xd192e819; 0xd6990624; 0xf40e3585; 0x106aa070]
  ++ [0x19a4c116; 0x1e376c08; 0x2748774c; 0x34b0bcb5; 0x391c0cb3; 0x4ed8aa4a; 0x5b9cca4f; 0x682e6ff3]
  ++ [0x748f82ee; 0x78a5636f; 0x84c87814; 0x8cc70208; 0x90befffa; 0xa4506ceb; 0xbef9a3f7; 0xc67178f2].

(** The eight working words. *)
Record regs := Regs { ra : N; rb : N; rc : N; rd : N; re : N; rf : N; rg : N; rh : N }.

Definition initial_hash : regs :=
  Regs 0x6a09e667 0xbb67ae85 0x3c6ef372 0xa54ff53a 0x510e527f 0x9b05688c 0x1f83d9ab 0x5be0cd19.

(** Message padding: a one bit, zeros up to 56 mod 64, the bit length on 64 bits. *)
Definition pad (msg : bytes) : bytes :=
  let n := List.length msg in
  msg ++ x80 :: repeat x00 ((64 - (n + 9) mod 64) mod 64)
      ++ be_bytes 8 (N.of_nat n * 8).

Fixpoint words (l : bytes) : list N :=
  match l with
  | a :: b :: c :: d :: rest => be_value [a; b; c; d] :: words rest
  | _ => []
  end.

(** The message schedule, kept most recent word first while it grows. *)
Fixpoint extend (n : nat) (w : list N) : list N :=
  match n with
  | O => w
  | S n' =>
      let at_ i := nth i w 0 in
      extend n' (plus (plus (small_sigma1 (at_ 1%nat)) (at_ 6%nat))
                      (plus (small_sigma0 (at_ 14%nat)) (at_ 15%nat)) :: w)
  end.

Definition schedule (block : list N) : list N := rev (extend 48 (rev block)).

Definition step (r : regs) (kw : N * N) : regs :=
  let t1 := plus (plus (plus (plus (rh r) (big_sigma1 (re r))) (choose (re r) (rf r) (rg r)))
                       (fst kw)) (snd kw) in
  let t2 := plus (big_sigma0 (ra r)) (majority (ra r) (rb r) (rc r)) in
  Regs (plus t1 t2) (ra r) (rb r) (rc r) (plus (rd r) t1) (re r) (rf r) (rg r).

Definition compress (h : regs) (block : list N) : regs :=
  let r := fold_left step (combine round_constants (schedule block)) h in
  Regs (plus (ra h) (ra r)) (plus (rb h) (rb r)) (plus (rc h) (rc r)) (plus (rd h) (rd r))
       (plus (re h) (re r)) (plus (rf h) (rf r)) (plus (rg h) (rg r)) (plus (rh h) (rh r)).

Fixpoint absorb (fuel : nat) (h : regs) (ws : list N) : regs :=
  match fuel, ws with
  | S fuel', _ :: _ => absorb fuel' (compress h (firstn 16 ws)) (skipn 16 ws)
  | _, _ => h
  end.

Definition output (r : regs) : bytes :=
  be_bytes 4 (ra r) ++ be_bytes 4 (rb r) ++ be_bytes 4 (rc r) ++ be_bytes 4 (rd r)
  ++ be_bytes 4 (re r) ++ be_bytes 4 (rf r) ++ be_bytes 4 (rg r) ++ be_bytes 4 (rh r).

Definition sha256 (msg : bytes) : bytes :=
  let ws := words (pad msg) in
  output (absorb (List.length ws) initial_hash ws).

End SHA256.

(** Lower-case hexadecimal, as [bytes.hex()] and [hexdigest()] print it. *)
Definition hex_digit (n : N) : ascii :=
  if (n <? 10)%N then ascii_of_N (48 + n) else ascii_of_N (87 + n).

Fixpoint hex (l : bytes) : string :=
  match l with
  | [] => EmptyString
  | b :: rest =>
      String (hex_digit (N.shiftr (Byte.to_N b) 4))
        (String (hex_digit (N.land (Byte.to_N b) 15)) (hex rest))
  end.

Definition encode (s : string) : bytes := list_byte_of_string s.

(** ** HMAC-SHA256 (RFC 2104), as [hmac.new(key, msg, hashlib.sha256)] *)

Module HMAC.

Definition block_size : nat := 64.

Definition hmac_sha256 (key msg : bytes) : bytes :=
  let key := if Nat.ltb block_size (List.length key) then SHA256.sha256 key else key in
  let key := key ++ repeat x00 (block_size - List.length key) in
  SHA256.sha256 (map (bxor x5c) key ++ SHA256.sha256 (map (bxor x36) key ++ msg)).

Definition hexdigest (key msg : bytes) : string := hex (hmac_sha256 key msg).

End HMAC.

(** ** HKDF with SHA-256 (RFC 5869), as [cryptography]'s [HKDF(...).derive] *)

Module HKDF.

Definition digest_size : nat := 32.

(** The expansion loop: block [i] is the HMAC of the previous block, the
    info string and the one-byte counter [i]. *)
Fixpoint expand_blocks (n : nat) (prk info previous : bytes) (counter : N) : bytes :=
  match n with
  | O => []
  | S n' =>
      let t := HMAC.hmac_sha256 prk (previous ++ info ++ [byte_of_N counter]) in
      t ++ expand_blocks n' prk info t (counter + 1)
  end.

Definition expand (length : nat) (info prk : bytes) : bytes :=
  firstn length (expand_blocks ((length + digest_size - 1) / digest_size) prk info [] 1).

Definition extract (salt : option bytes) (key_material : bytes) : bytes :=
  HMAC.hmac_sha256 (match salt with Some s => s | None => repeat x00 digest_size end)
                   key_material.

Definition derive (length : nat) (salt : option bytes) (info key_material : bytes) : bytes :=
  expand length info (extract salt key_material).

End HKDF.

(** ** Base64 as Python's [base64] module computes it

    [urlsafe_b64encode] is [binascii.b2a_base64] followed by the translation
    of [+] and [/] to [-] and [_]; [urlsafe_b64decode] translates back and
    calls [binascii.a2b_base64] in its default, non-strict mode. *)

Module Base64.
Local Open Scope N_scope.

Definition pad_char : byte := x3d.

(** The character of a 6-bit value in the standard alphabet. *)
Definition b2a_char (i : N) : byte :=
  if i <? 26 then byte_of_N (65 + i)
  else if i <? 52 then byte_of_N (71 + i)
  else if i <? 62 then byte_of_N (i - 4)
  else if i =? 62 then x2b
  else x2f.

(** The 6-bit value of a character of the standard alphabet. *)
Definition a2b_value (c : byte) : option N :=
  let n := Byte.to_N c in
  if (65 <=? n) && (n <=? 90) then Some (n - 65)
  else if (97 <=? n) && (n <=? 122) then Some (n - 71)
  else if (48 <=? n) && (n <=? 57) then Some (n + 4)
  else if n =? 43 then Some 62
  else if n =? 47 then Some 63
  else None.

Fixpoint b2a_base64 (l : bytes) : bytes :=
  match l with
  | [] => []
  | [a] =>
      let a := Byte.to_N a in
      [b2a_char (N.shiftr a 2); b2a_char (N.shiftl (N.land a 3) 4); pad_char; pad_char]
  | [a; b] =>
      let a := Byte.to_N a in
      let b := Byte.to_N b in
      [b2a_char (N.shiftr a 2);
       b2a_char (N.lor (N.shiftl (N.land a 3) 4) (N.shiftr b 4));
       b2a_char (N.shiftl (N.land b 15) 2); pad_char]
  | a :: b :: c :: rest =>
      let a := Byte.to_N a in
      let b := Byte.to_N b in
      let c := Byte.to_N c in
      b2a_char (N.shiftr a 2)
      :: b2a_char (N.lor (N.shiftl (N.land a 3) 4) (N.shiftr b 4))
      :: b2a_char (N.lor (N.shiftl (N.land b 15) 2) (N.shiftr c 6))
      :: b2a_char (N.land c 63)
      :: b2a_base64 rest
  end.

(** The decoder's loop.  [quad_pos] counts the characters of the current
    group of four, [leftchar] holds the bits not yet written, [pads] the
    padding characters seen since the last data character.  Characters
    outside the alphabet are skipped; a padding run that completes a group
    stops the decoding, whatever follows; input that ends inside a group is
    an error ([None], Python's [binascii.Error]). *)
Fixpoint a2b_loop (l : bytes) (quad_pos : nat) (leftchar : N) (pads : nat) (out : bytes)
  : option bytes :=
  match l with
  | [] => if Nat.eqb quad_pos 0 then Some (rev out) else None
  | ch :: rest =>
      if Byte.eqb ch pad_char then
        if Nat.leb 2 quad_pos then
          if Nat.leb 4 (quad_pos + S pads) then Some (rev out)
          else a2b_loop rest quad_pos leftchar (S pads) out
        else a2b_loop rest quad_pos leftchar pads out
      else
        match a2b_value ch with
        | None => a2b_loop rest quad_pos leftchar pads out
        | Some v =>
            match quad_pos with
            | 0%nat => a2b_loop rest 1 v 0 out
            | 1%nat =>
                a2b_loop rest 2 (N.land v 15) 0
                  (byte_of_N (N.lor (N.shiftl leftchar 2) (N.shiftr v 4)) :: out)
            | 2%nat =>
                a2b_loop rest 3 (N.land v 3) 0
                  (byte_of_N (N.lor (N.shiftl leftchar 4) (N.shiftr v 2)) :: out)
            | _ =>
                a2b_loop rest 0 0 0
                  (byte_of_N (N.lor (N.shiftl leftchar 6) v) :: out)
            end
        end
  end.

Definition a2b_base64 (l : bytes) : option bytes := a2b_loop l 0 0 0 [].

Definition urlsafe_encode_translation (c : byte) : byte :=
  if Byte.eqb c x2b then x2d else if Byte.eqb c x2f then x5f else c.

Definition urlsafe_decode_translation (c : byte) : byte :=
  if Byte.eqb c x2d then x2b else if Byte.eqb c x5f then x2f else c.

Definition urlsafe_b64encode (s : bytes) : bytes :=
  map urlsafe_encode_translation (b2a_base64 s).

Definition urlsafe_b64decode (s : bytes) : option bytes :=
  a2b_base64 (map urlsafe_decode_translation s).

End Base64.

(** ** AES-128 (FIPS 197) in CBC mode with PKCS7 padding *)

Module AES.

Definition bits8 : Type :=
  (bool * (bool * (bool * (bool * (bool * (bool * (bool * bool)))))))%type.

(** Multiplication by [x] in GF(2^8) modulo [x^8 + x^4 + x^3 + x + 1]:
    a left shift, and [0x1b] added when the top bit falls out. *)
Definition xtime_bits (p : bits8) : bits8 :=
  let '(p0, (p1, (p2, (p3, (p4, (p5, (p6, p7))))))) := p in
  (p7, (xorb p0 p7, (p1, (xorb p2 p7, (xorb p3 p7, (p4, (p5, p6))))))).

Definition xtime (a : byte) : byte := of_bits (xtime_bits (to_bits a)).

Definition bit_list (c : byte) : list bool :=
  let '(c0, (c1, (c2, (c3, (c4, (c5, (c6, c7))))))) := to_bits c in
  [c0; c1; c2; c3; c4; c5; c6; c7].

Fixpoint gmul_bits (c : list bool) (a : byte) : byte :=
  match c with
  | [] => x00
  | b :: rest => bxor (if b then a else x00) (xtime (gmul_bits rest a))
  end.

(** The product of two field elements. *)
Definition gmul (c a : byte) : byte := gmul_bits (bit_list c) a.

(** The multiplicative inverse, [a^254], with [0] mapped to [0]. *)
Definition ginv (a : byte) : byte :=
  let a2 := gmul a a in
  let a4 := gmul a2 a2 in
  let a8 := gmul a4 a4 in
  let a16 := gmul a8 a8 in
  let a32 := gmul a16 a16 in
  let a64 := gmul a32 a32 in
  let a128 := gmul a64 a64 in
  gmul a2 (gmul a4 (gmul a8 (gmul a16 (gmul a32 (gmul a64 a128))))).

Definition rotl_bits (p : bits8) : bits8 :=
  let '(p0, (p1, (p2, (p3, (p4, (p5, (p6, p7))))))) := p in
  (p7, (p0, (p1, (p2, (p3, (p4, (p5, p6))))))).

Definition rotl (k : nat) (a : byte) : byte :=
  of_bits (Nat.iter k rotl_bits (to_bits a)).

(** The S-box by its definition: inversion, then the affine map. *)
Definition sbox_formula (a : byte) : byte :=
  let b := ginv a in
  bxor (bxor (bxor (bxor (bxor b (rotl 1 b)) (rotl 2 b)) (rotl 3 b)) (rotl 4 b)) x63.

Definition inv_sbox_formula (s : byte) : byte :=
  ginv (bxor (bxor (bxor (rotl 1 s) (rotl 3 s)) (rotl 6 s)) x05).

Definition sbox_table : bytes := Eval vm_compute in map sbox_formula all_bytes.
Definition inv_sbox_table : bytes := Eval vm_compute in map inv_sbox_formula all_bytes.

Definition sbox (a : byte) : byte := nth (Byte.to_nat a) sbox_table x00.
Definition inv_sbox (a : byte) : byte := nth (Byte.to_nat a) inv_sbox_table x00.

(** A column of the state, and the state: four columns. *)
Definition word : Type := (byte * byte * byte * byte)%type.
Definition block : Type := (word * word * word * word)%type.

Definition map_word (f : byte -> byte) (w : word) : word :=
  let '(a, b, c, d) := w in (f a, f b, f c, f d).

Definition map_block (f : word -> word) (s : block) : block :=
  let '(a, b, c, d) := s in (f a, f b, f c, f d).

Definition xor_word (v w : word) : word :=
  let '(a, b, c, d) := v in
  let '(a', b', c', d') := w in
  (bxor a a', bxor b b', bxor c c', bxor d d').

Definition xor_block (s t : block) : block :=
  let '(a, b, c, d) := s in
  let '(a', b', c', d') := t in
  (xor_word a a', xor_word b b', xor_word c c', xor_word d d').

Definition sub_bytes : block -> block := map_block (map_word sbox).
Definition inv_sub_bytes : block -> block := map_block (map_word inv_sbox).

(** Row [r] moves left by [r] columns. *)
Definition shift_rows (s : block) : block :=
  let '((a0, a1, a2, a3), (b0, b1, b2, b3), (c0, c1, c2, c3), (d0, d1, d2, d3)) := s in
  ((a0, b1, c2, d3), (b0, c1, d2, a3), (c0, d1, a2, b3), (d0, a1, b2, c3)).

Definition inv_shift_rows (s : block) : block :=
  let '((a0, a1, a2, a3), (b0, b1, b2, b3), (c0, c1, c2, c3), (d0, d1, d2, d3)) := s in
  ((a0, d1, c2, b3), (b0, a1, d2, c3), (c0, b1, a2, d3), (d0, c1, b2, a3)).

Definition mix_column (w : word) : word :=
  let '(a, b, c, d) := w in
  (bxor (bxor (bxor (gmul x02 a) (gmul x03 b)) c) d,
   bxor (bxor (bxor a (gmul x02 b)) (gmul x03 c)) d,
   bxor (bxor (bxor a b) (gmul x02 c)) (gmul x03 d),
   bxor (bxor (bxor (gmul x03 a) b) c) (gmul x02 d)).

Definition inv_mix_column (w : word) : word :=
  let '(a, b, c, d) := w in
  (bxor (bxor (bxor (gmul x0e a) (gmul x0b b)) (gmul x0d c)) (gmul x09 d),
   bxor (bxor (bxor (gmul x09 a) (gmul x0e b)) (gmul x0b c)) (gmul x0d d),
   bxor (bxor (bxor (gmul x0d a) (gmul x09 b)) (gmul x0e c)) (gmul x0b d),
   bxor (bxor (bxor (gmul x0b a) (gmul x0d b)) (gmul x09 c)) (gmul x0e d)).

Definition mix_columns : block -> block := map_block mix_column.
Definition inv_mix_columns : block -> block := map_block inv_mix_column.

(** One step of the key expansion: the next round key from the last one
    and the round constant. *)
Definition next_round_key (k : block) (rcon : byte) : block :=
  let '(w0, w1, w2, w3) := k in
  let '(a, b, c, d) := w3 in
  let t := xor_word (map_word sbox (b, c, d, a)) (rcon, x00, x00, x00) in
  let w0' := xor_word w0 t in
  let w1' := xor_word w1 w0' in
  let w2' := xor_word w2 w1' in
  let w3' := xor_word w3 w2' in
  (w0', w1', w2', w3').

Fixpoint expand_key (n : nat) (k : block) (rcon : byte) : list block :=
  match n with
  | O => []
  | S n' =>
      let k' := next_round_key k rcon in
      k' :: expand_key n' k' (xtime rcon)
  end.

(** Round keys 1 to 10. *)
Definition round_keys (key : block) : list block := expand_key 10 key x01.

(** The rounds of the cipher over the remaining round keys; the last round
    has no MixColumns. *)
Fixpoint rounds (ks : list block) (s : block) : block :=
  match ks with
  | [] => s
  | [k] => xor_block (shift_rows (sub_bytes s)) k
  | k :: ks' => rounds ks' (xor_block (mix_columns (shift_rows (sub_bytes s))) k)
  end.

(** The rounds of the inverse cipher: the round keys are used last to
    first, each round undoing the matching round of [rounds]. *)
Fixpoint inv_rounds (ks : list block) (s : block) : block :=
  match ks with
  | [] => s
  | [k] => inv_sub_bytes (inv_shift_rows (xor_block s k))
  | k :: ks' =>
      inv_sub_bytes (inv_shift_rows (inv_mix_columns (xor_block (inv_rounds ks' s) k)))
  end.

Definition encrypt_block (key : block) (s : block) : block :=
  rounds (round_keys key) (xor_block s key).

Definition decrypt_block (key : block) (s : block) : block :=
  xor_block (inv_rounds (round_keys key) s) key.

(** Byte strings and blocks. *)
Definition bytes_of_word (w : word) : bytes :=
  let '(a, b, c, d) := w in [a; b; c; d].

Definition bytes_of_block (s : block) : bytes :=
  let '(a, b, c, d) := s in
  bytes_of_word a ++ bytes_of_word b ++ bytes_of_word c ++ bytes_of_word d.

(** A byte string cut into blocks; [None] when its length is no multiple
    of the block size. *)
Fixpoint blocks_of_bytes (l : bytes) : option (list block) :=
  match l with
  | [] => Some []
  | a0 :: a1 :: a2 :: a3 :: b0 :: b1 :: b2 :: b3
    :: c0 :: c1 :: c2 :: c3 :: d0 :: d1 :: d2 :: d3 :: rest =>
      match blocks_of_bytes rest with
      | Some bs => Some (((a0, a1, a2, a3), (b0, b1, b2, b3), (c0, c1, c2, c3), (d0, d1, d2, d3)) :: bs)
      | None => None
      end
  | _ => None
  end.

Definition block_of_bytes (l : bytes) : option block :=
  match blocks_of_bytes l with
  | Some [b] => Some b
  | _ => None
  end.

Definition bytes_of_blocks (bs : list block) : bytes := flat_map bytes_of_block bs.

Fixpoint cbc_encrypt (key previous : block) (ps : list block) : list block :=
  match ps with
  | [] => []
  | p :: rest =>
      let c := encrypt_block key (xor_block p previous) in
      c :: cbc_encrypt key c rest
  end.

Fixpoint cbc_decrypt (key previous : block) (cs : list block) : list block :=
  match cs with
  | [] => []
  | c :: rest => xor_block (decrypt_block key c) previous :: cbc_decrypt key c rest
  end.

Definition block_size : nat := 16.

(** PKCS7: [n] bytes of value [n], with [1 <= n <= 16], fill the last block. *)
Definition pkcs7_pad (data : bytes) : bytes :=
  let n := block_size - List.length data mod block_size in
  data ++ repeat (byte_of_N (N.of_nat n)) n.

(** The padding check reads the last byte [n] and accepts when [n] is
    between 1 and the block size and the last [n] bytes all equal [n]. *)
Definition pkcs7_unpad (padded : bytes) : option bytes :=
  match rev padded with
  | [] => None
  | p :: _ =>
      let n := Byte.to_nat p in
      if Nat.leb 1 n && Nat.leb n block_size && Nat.leb n (List.length padded)
         && forallb (Byte.eqb p) (firstn n (rev padded))
      then Some (firstn (List.length padded - n) padded)
      else None
  end.

End AES.

(** ** Exceptions

    The exceptions the program raises or lets through.  [ClientError]
    stands for whatever an external client (storage, document store, JSON
    decoder) raises; it carries the exception's message. *)

Inductive Exn : Type :=
| HTTPException (status_code : nat) (detail : string)
| InvalidToken
| ValueError (msg : string)
| TypeError (msg : string)
| OverflowError (msg : string)
| ClientError (msg : string).

Definition result (A : Type) : Type := (Exn + A)%type.

Definition string_of_nat (n : nat) : string :=
  DecimalString.NilZero.string_of_uint (Nat.to_uint n).

(** [str(e)], which an f-string prints for [{e}].  [InvalidToken] is raised
    without arguments, so its text is empty. *)
Definition str (e : Exn) : string :=
  match e with
  | HTTPException status_code detail => string_of_nat status_code ++ ": " ++ detail
  | InvalidToken => ""
  | ValueError msg | TypeError msg | OverflowError msg | ClientError msg => msg
  end.

(** ** Fernet tokens, as [cryptography.fernet.Fernet]

    A token is the URL-safe base64 of
    [0x80 || timestamp (8 bytes) || IV (16) || AES-128-CBC ciphertext || HMAC-SHA256 tag (32)]. *)

Module Fernet.

Record t : Type := Make { signing_key : bytes; encryption_key : AES.block }.

Definition key_error : Exn :=
  ValueError "Fernet key must be 32 url-safe base64-encoded bytes.".

(** [Fernet(key)]: the key is 32 bytes in URL-safe base64; the first half
    signs, the second half encrypts. *)
Definition Fernet (key : bytes) : result t :=
  match Base64.urlsafe_b64decode key with
  | None => inl key_error
  | Some k =>
      if negb (Nat.eqb (List.length k) 32) then inl key_error
      else
        match AES.block_of_bytes (skipn 16 k) with
        | Some ek => inr (Make (firstn 16 k) ek)
        | None => inl key_error
        end
  end.

(** [_encrypt_from_parts(data, current_time, iv)]; [encrypt] calls it with
    the clock's seconds and sixteen bytes of [os.urandom]. *)
Definition encrypt_from_parts (f : t) (data : bytes) (current_time : N) (iv : AES.block)
  : result bytes :=
  match AES.blocks_of_bytes (AES.pkcs7_pad data) with
  | None => inl (ValueError "The length of the provided data is not a multiple of the block length.")
  | Some ps =>
      let ciphertext := AES.bytes_of_blocks (AES.cbc_encrypt (encryption_key f) iv ps) in
      if (2 ^ 64 <=? current_time)%N then inl (OverflowError "int too big to convert")
      else
        let basic_parts :=
          x80 :: be_bytes 8 current_time ++ AES.bytes_of_block iv ++ ciphertext in
        inr (Base64.urlsafe_b64encode
               (basic_parts ++ HMAC.hmac_sha256 (signing_key f) basic_parts))
  end.

(** [_get_unverified_token_data]: the decoded token, which must start with
    the version byte and hold a timestamp. *)
Definition get_unverified_token_data (token : bytes) : result (N * bytes) :=
  match Base64.urlsafe_b64decode token with
  | None => inl InvalidToken
  | Some data =>
      match data with
      | [] => inl InvalidToken
      | version :: _ =>
          if negb (Byte.eqb version x80) then inl InvalidToken
          else if Nat.ltb (List.length data) 9 then inl InvalidToken
          else inr (be_value (firstn 8 (skipn 1 data)), data)
      end
  end.

(** [_verify_signature]: the last 32 bytes must be the HMAC of the rest. *)
Definition verify_signature (f : t) (data : bytes) : result unit :=
  let n := List.length data - 32 in
  if bytes_eqb (HMAC.hmac_sha256 (signing_key f) (firstn n data)) (skipn n data)
  then inr tt
  else inl InvalidToken.

(** [_decrypt_data] without a time-to-live: tag, then CBC, then padding. *)
Definition decrypt_data (f : t) (data : bytes) : result bytes :=
  match verify_signature f data with
  | inl e => inl e
  | inr _ =>
      let iv := firstn 16 (skipn 9 data) in
      let ciphertext := skipn 25 (firstn (List.length data - 32) data) in
      match AES.block_of_bytes iv with
      | None => inl (ValueError "Invalid IV size for CBC.")
      | Some iv =>
          match AES.blocks_of_bytes ciphertext with
          | None => inl InvalidToken
          | Some cs =>
              match AES.pkcs7_unpad (AES.bytes_of_blocks (AES.cbc_decrypt (encryption_key f) iv cs)) with
              | None => inl InvalidToken
              | Some plaintext => inr plaintext
              end
          end
      end
  end.

(** [decrypt(token)], called without [ttl]. *)
Definition decrypt (f : t) (token : bytes) : result bytes :=
  match get_unverified_token_data token with
  | inl e => inl e
  | inr (_, data) => decrypt_data f data
  end.

End Fernet.

(** ** The handlers' effects

    A handler computes a value or raises, and leaves a trace of what it did
    to the request and to the external clients. *)

(** A decoded JSON document (the result of [request.json()]). *)
Unset Elimination Schemes.
Inductive Json : Type :=
| JNull
| JBool (b : bool)
| JNumber (literal : string)
| JString (s : string)
| JArray (items : list Json)
| JObject (members : list (string * Json)).
Set Elimination Schemes.

Inductive Event : Type :=
| ReadBody
    (* [await request.body()] *)
| ReadJson
    (* [await request.json()] *)
| Decrypt (token : bytes)
    (* [FERNET_INSTANCE.decrypt(token)] *)
| Upload (bucket : option string) (blob_name : string) (data : bytes) (content_type : string)
    (* [storage_client.bucket(bucket).blob(blob_name).upload_from_string(data, content_type)] *)
| DocumentSet (collection : string) (document : Json)
              (timestamp ip_address : string) (config_version : Json).
    (* [firestore_client.collection(..).document(..).set({..})] *)

Definition M (A : Type) : Type := (list Event * result A)%type.

Definition ret {A : Type} (a : A) : M A := ([], inr a).

Definition raise {A : Type} (e : Exn) : M A := ([], inl e).

Definition emit (ev : Event) : M unit := ([ev], inr tt).

Definition lift {A : Type} (r : result A) : M A := ([], r).

Definition bind {A B : Type} (m : M A) (k : A -> M B) : M B :=
  match m with
  | (t, inl e) => (t, inl e)
  | (t, inr a) => let '(t', r) := k a in (t ++ t', r)
  end.

(** [try: m  except Exception as e: handler(e)]. *)
Definition try_except {A : Type} (m : M A) (handler : Exn -> M A) : M A :=
  match m with
  | (t, inl e) => let '(t', r) := handler e in (t ++ t', r)
  | (t, inr a) => (t, inr a)
  end.

Declare Scope handler_scope.
Delimit Scope handler_scope with handler.
Notation "x <- m ;; k" := (bind m (fun x => k))
  (at level 61, m at next level, right associativity) : handler_scope.
Notation "m ;; k" := (bind m (fun _ => k))
  (at level 61, right associativity) : handler_scope.
Local Open Scope handler_scope.
Local Open Scope string_scope.

(** ** Process-wide state of [main.py] *)

(** What the process reads when it starts: the environment variables and
    the answer of the secret manager. *)
Record Environment : Type := {
  K_SERVICE : bool;
  ANCHOR_KEY_variable : option string;
  BUCKET_NAME_variable : option string;
  secret_payload : result string
}.

(** The module's globals once start-up is over.  A Python [str] is held as
    the bytes of its UTF-8 encoding, so [.encode()] is [encode]. *)
Record Globals : Type := {
  IS_PROD_ENVIRONMENT : bool;
  BUCKET_NAME : option string;
  MASTER_KEY : bytes;
  AUTH_KEY : bytes;
  ENCRYPTION_KEY : bytes;
  FERNET_INSTANCE : Fernet.t
}.

Definition get_anchor_key (env : Environment) : result string :=
  if K_SERVICE env then secret_payload env
  else
    match ANCHOR_KEY_variable env with
    | None | Some EmptyString =>
        inl (ValueError "FATAL: ANCHOR_KEY not set for local development. Check your .env file.")
    | Some key => inr key
    end.

Definition auth_info : bytes := encode "envoy-api-hmac-authentication-key".
Definition encrypt_info : bytes := encode "envoy-api-fernet-encryption-key".

(** [hkdf_auth.derive] and [hkdf_encrypt.derive]. *)
Definition hkdf_auth : bytes -> bytes := HKDF.derive 32 None auth_info.
Definition hkdf_encrypt : bytes -> bytes := HKDF.derive 32 None encrypt_info.

(** The module body: the keys are derived once, when the module loads. *)
Definition startup (env : Environment) : result Globals :=
  match get_anchor_key env with
  | inl e => inl e
  | inr key =>
      let master := encode key in
      let encryption_key := Base64.urlsafe_b64encode (hkdf_encrypt master) in
      match Fernet.Fernet encryption_key with
      | inl e => inl e
      | inr fernet =>
          inr {| IS_PROD_ENVIRONMENT := K_SERVICE env;
                 BUCKET_NAME := BUCKET_NAME_variable env;
                 MASTER_KEY := master;
                 AUTH_KEY := hkdf_auth master;
                 ENCRYPTION_KEY := encryption_key;
                 FERNET_INSTANCE := fernet |}
      end
  end.

(** ** Requests, external clients, responses *)

Record Request : Type := {
  raw_body : bytes;
  x_anchor_signature_header : option string;
  content_type_header : option string;
  filename_parameter : option string;
  client_host : string
}.

(** The clock and the external clients, as one request sees them.  A client
    answers [None] when the call returns and [Some e] when it raises [e]. *)
Record World : Type := {
  utcnow_isoformat : string;
  utcnow_timestamp : Z;
  json_loads : bytes -> result Json;
  upload_from_string : option string -> string -> bytes -> string -> option Exn;
  document_set : string -> Json -> string -> string -> Json -> option Exn
}.

Inductive Content : Type :=
| RootStatus
| BootAck
| Directive (directive_id : string)
| IngestAck (filename : string) (size : nat) (gcs_path : string)
| Detail (detail : string)
| MissingParameter (location name : string)
| InternalServerError.

Record Response : Type := { status : nat; content : Content }.

(** ** Signature check *)

Definition is_ascii (s : string) : bool :=
  forallb (fun c => (N_of_ascii c <? 128)%N) (list_ascii_of_string s).

(** [hmac.compare_digest] on two [str]: both must be ASCII, otherwise it
    raises [TypeError]; on ASCII strings it is equality. *)
Definition compare_digest (a b : string) : result bool :=
  if is_ascii a && is_ascii b then inr (String.eqb a b)
  else inl (TypeError "comparing strings with non-ASCII characters is not supported").

Definition request_body (request : Request) : M bytes :=
  emit ReadBody ;; ret (raw_body request).

(** Python's [not x] for an optional string: true for [None] and for the
    empty string. *)
Definition falsy (s : option string) : bool :=
  match s with
  | None | Some EmptyString => true
  | Some _ => false
  end.

Definition header_value (s : option string) : string :=
  match s with
  | Some v => v
  | None => ""
  end.

Definition verify_hmac (g : Globals) (request : Request) (x_anchor_signature : option string)
  : M bool :=
  if falsy x_anchor_signature then
    raise (HTTPException 401 "X-Anchor-Signature header missing")
  else
    body <- request_body request ;;
    let expected_signature := HMAC.hexdigest (AUTH_KEY g) body in
    same <- lift (compare_digest expected_signature (header_value x_anchor_signature)) ;;
    if negb same then raise (HTTPException 403 "Invalid signature")
    else ret true.

(** ** Endpoints *)

Definition read_root : M Content := ret RootStatus.

Definition dict_get (d : Json) (key : string) (default : Json) : result Json :=
  match d with
  | JObject members =>
      match find (fun kv => String.eqb (fst kv) key) members with
      | Some kv => inr (snd kv)
      | None => inr default
      end
  | _ => inl (TypeError "object has no attribute 'get'")
  end.

Definition client_call (answer : option Exn) : M unit :=
  match answer with
  | None => ret tt
  | Some e => raise e
  end.

Definition boot_endpoint (g : Globals) (w : World) (request : Request) : M Content :=
  emit ReadJson ;;
  boot_data <- lift (json_loads w (raw_body request)) ;;
  (if IS_PROD_ENVIRONMENT g then
     document <- lift (dict_get boot_data "device_id" (JString "unknown_device")) ;;
     config_version <- lift (dict_get boot_data "config_version" JNull) ;;
     emit (DocumentSet "boots" document (utcnow_isoformat w) (client_host request) config_version) ;;
     client_call (document_set w "boots" document (utcnow_isoformat w) (client_host request)
                    config_version)
   else ret tt) ;;
  ret BootAck.

Definition string_of_Z (z : Z) : string :=
  DecimalString.NilZero.string_of_int (Z.to_int z).

Definition directive_endpoint (w : World) : M Content :=
  ret (Directive ("cmd_" ++ string_of_Z (utcnow_timestamp w))).

(** How an f-string prints an optional string. *)
Definition format_optional (s : option string) : string :=
  match s with
  | Some v => v
  | None => "None"
  end.

Definition ingest_file (g : Globals) (w : World) (request : Request)
           (x_anchor_signature : string) (filename : string) : M Content :=
  (* 1. Read the raw request body once. *)
  encrypted_contents <- request_body request ;;
  (* 2. Verify the HMAC signature on the body just read. *)
  let expected_signature := HMAC.hexdigest (AUTH_KEY g) encrypted_contents in
  same <- lift (compare_digest expected_signature x_anchor_signature) ;;
  if negb same then raise (HTTPException 403 "Invalid signature")
  else
    (* 3. Decrypt the file. *)
    decrypted_contents <-
      try_except
        (emit (Decrypt encrypted_contents) ;;
         lift (Fernet.decrypt (FERNET_INSTANCE g) encrypted_contents))
        (fun e => raise (HTTPException 400 ("Invalid encrypted payload or key: " ++ str e))) ;;
    gcs_path <-
      (if IS_PROD_ENVIRONMENT g then
         try_except
           (let blob_name := "uploads/" ++ utcnow_isoformat w ++ "_" ++ filename in
            let content_type :=
              match content_type_header request with
              | Some v => v
              | None => "application/octet-stream"
              end in
            emit (Upload (BUCKET_NAME g) blob_name encrypted_contents content_type) ;;
            client_call (upload_from_string w (BUCKET_NAME g) blob_name encrypted_contents
                           content_type) ;;
            ret ("gs://" ++ format_optional (BUCKET_NAME g) ++ "/" ++ blob_name))
           (fun e => raise (HTTPException 500 ("Failed to store file: " ++ str e)))
       else
         ret ("gs://local-bucket/uploads/mock_" ++ utcnow_isoformat w ++ "_" ++ filename)) ;;
    ret (IngestAck filename (List.length encrypted_contents) gcs_path).

(** ** The framework around the handlers

    A handler's value is a 200 response; an [HTTPException] is a response
    with its status and detail; any other exception is a 500. *)

Definition respond (m : M Content) : list Event * Response :=
  match m with
  | (t, inr c) => (t, {| status := 200; content := c |})
  | (t, inl (HTTPException status_code detail)) =>
      (t, {| status := status_code; content := Detail detail |})
  | (t, inl _) => (t, {| status := 500; content := InternalServerError |})
  end.

Inductive Operation : Type := BootAnnounce | DirectiveFetch | FileIngest.

(** [POST /boot] and [POST /directive] run the [verify_hmac] dependency,
    whose header parameter is optional ([Header(None)]), before the
    endpoint.  [POST /ingest] declares the header as required
    ([Header(...)]): without it the framework answers 422 and does not call
    the endpoint; its [filename] query parameter defaults to
    ["uploaded.file"]. *)
Definition handle (op : Operation) (g : Globals) (w : World) (request : Request)
  : list Event * Response :=
  match op with
  | BootAnnounce =>
      respond (verify_hmac g request (x_anchor_signature_header request) ;;
               boot_endpoint g w request)
  | DirectiveFetch =>
      respond (verify_hmac g request (x_anchor_signature_header request) ;;
               directive_endpoint w)
  | FileIngest =>
      match x_anchor_signature_header request with
      | None => ([], {| status := 422; content := MissingParameter "header" "x-anchor-signature" |})
      | Some signature =>
          respond (ingest_file g w request signature
                     (match filename_parameter request with
                      | Some name => name
                      | None => "uploaded.file"
                      end))
      end
  end.

(** ** test_client.py

    The client derives the same two keys from its copy of the master key
    and signs what it sends.  A test's request is modelled by the [Request]
    the server receives for it. *)

Definition ANCHOR_KEY_MASTER : string := "ENVOY_API_PASS1234".

Definition master_key_bytes : bytes := encode ANCHOR_KEY_MASTER.

Definition AUTH_KEY_DERIVED : bytes := hkdf_auth master_key_bytes.

Definition encryption_key_derived : bytes :=
  Base64.urlsafe_b64encode (hkdf_encrypt master_key_bytes).

Definition FERNET_INSTANCE_CLIENT : result Fernet.t := Fernet.Fernet encryption_key_derived.

Definition generate_signature (body : bytes) : string :=
  HMAC.hexdigest AUTH_KEY_DERIVED body.

Definition plaintext_content : bytes :=
  encode "This is a secret log file, sent as raw binary.".

(** [test_ingest]: the encrypted file is the raw body, signed as sent; the
    clock and the random IV of [encrypt] are parameters. *)
Definition test_ingest (host : string) (current_time : N) (iv : AES.block) : result Request :=
  match FERNET_INSTANCE_CLIENT with
  | inl e => inl e
  | inr fernet =>
      match Fernet.encrypt_from_parts fernet plaintext_content current_time iv with
      | inl e => inl e
      | inr encrypted_content =>
          inr {| raw_body := encrypted_content;
                 x_anchor_signature_header := Some (generate_signature encrypted_content);
                 content_type_header := Some "application/octet-stream";
                 filename_parameter := Some "secret.log.enc";
                 client_host := host |}
      end
  end.

(** [test_invalid_signature]: the body [{}] under the signature [invalid]. *)
Definition test_invalid_signature (host : string) : Request :=
  {| raw_body := encode "{}";
     x_anchor_signature_header := Some "invalid";
     content_type_header := Some "application/json";
     filename_parameter := None;
     client_host := host |}.

(** A request signed by the client. *)
Definition signed_request (host : string) (body : bytes) (content_type : string) : Request :=
  {| raw_body := body;
     x_anchor_signature_header := Some (generate_signature body);
     content_type_header := Some content_type;
     filename_parameter := None;
     client_host := host |}.

(** ** A deployment to evaluate the handlers on

    The environment of the test client's server, local or on Cloud Run, and
    clients that accept every call. *)

Definition example_environment (production : bool) : Environment :=
  {| K_SERVICE := production;
     ANCHOR_KEY_variable := Some ANCHOR_KEY_MASTER;
     BUCKET_NAME_variable := Some "envoy-uploads";
     secret_payload := inr ANCHOR_KEY_MASTER |}.

Definition example_world : World :=
  {| utcnow_isoformat := "2024-01-01T00:00:00";
     utcnow_timestamp := 1704067200;
     json_loads := fun _ => inr (JObject []);
     upload_from_string := fun _ _ _ _ => None;
     document_set := fun _ _ _ _ _ => None |}.

Definition example_iv : AES.block :=
  ((x10, x11, x12, x13), (x14, x15, x16, x17), (x18, x19, x1a, x1b), (x1c, x1d, x1e, x1f)).

(** What a trace handed to the storage client. *)
Definition uploaded (t : list Event) : list bytes :=
  flat_map (fun ev => match ev with Upload _ _ data _ => [data] | _ => [] end) t.

Definition is_read_body (ev : Event) : bool :=
  match ev with
  | ReadBody => true
  | _ => false
  end.

(** The byte string with the byte at [index] replaced. *)
Definition replace_byte (index : nat) (b : byte) (l : bytes) : bytes :=
  (firstn index l ++ b :: skipn (S index) l)%list.

(** The string with the high bit of its first character flipped. *)
Definition flip_high_bit (s : string) : string :=
  match s with
  | EmptyString => EmptyString
  | String c rest => String (ascii_of_N (N.lxor (N_of_ascii c) 128)) rest
  end.

(** The request with another body, signed again by the client. *)
Definition with_body (request : Request) (body : bytes) : Request :=
  {| raw_body := body;
     x_anchor_signature_header := Some (generate_signature body);
     content_type_header := content_type_header request;
     filename_parameter := filename_parameter request;
     client_host := client_host request |}.

(** The request under another signature header. *)
Definition with_signature (request : Request) (signature : option string) : Request :=
  {| raw_body := raw_body request;
     x_anchor_signature_header := signature;
     content_type_header := content_type_header request;
     filename_parameter := filename_parameter request;
     client_host := client_host request |}.

(** ** Auxiliary definitions for the proofs *)

(** The sextets the base64 encoder cuts three bytes into, and how the
    decoder sees their characters. *)
Module Sextets.
Import Base64.
Local Open Scope N_scope.

(** A character of the encoder's output as the decoder reads it. *)
Definition wire (i : N) : byte :=
  urlsafe_decode_translation (urlsafe_encode_translation (b2a_char i)).

Definition sextet1 (a : byte) : N := N.shiftr (Byte.to_N a) 2.
Definition sextet2 (a b : byte) : N :=
  N.lor (N.shiftl (N.land (Byte.to_N a) 3) 4) (N.shiftr (Byte.to_N b) 4).
Definition sextet3 (b c : byte) : N :=
  N.lor (N.shiftl (N.land (Byte.to_N b) 15) 2) (N.shiftr (Byte.to_N c) 6).
Definition sextet4 (c : byte) : N := N.land (Byte.to_N c) 63.
Definition sextet2_last (a : byte) : N := N.shiftl (N.land (Byte.to_N a) 3) 4.
Definition sextet3_last (b : byte) : N := N.shiftl (N.land (Byte.to_N b) 15) 2.

(** The decoder reads sextet [i] back from its character. *)
Definition reads_back (i : N) : bool :=
  negb (Byte.eqb (wire i) pad_char)
  && match a2b_value (wire i) with Some v => v =? i | None => false end.

End Sextets.

(** What [encrypt_from_parts] signs: version, timestamp, IV, ciphertext. *)
Definition basic_parts (f : Fernet.t) (ps : list AES.block) (current_time : N) (iv : AES.block)
  : bytes :=
  ((x80 :: be_bytes 8 current_time)
   ++ AES.bytes_of_block iv
   ++ AES.bytes_of_blocks (AES.cbc_encrypt (Fernet.encryption_key f) iv ps))%list.

Definition invalid_signature : Exn := HTTPException 403 "Invalid signature".

(** * Proofs *)

Local Close Scope string_scope.
Local Close Scope handler_scope.

(** * The primitives on published test vectors *)

Example sha256_abc :
  hex (SHA256.sha256 (encode "abc"))
  = "ba7816bf8f01cfea414140de5dae2223b00361a396177a9cb410ff61f20015ad"%string.
Proof. vm_compute. reflexivity. Qed.

Example sha256_empty :
  hex (SHA256.sha256 [])
  = "e3b0c44298fc1c149afbf4c8996fb92427ae41e4649b934ca495991b7852b855"%string.
Proof. vm_compute. reflexivity. Qed.

Example hmac_sha256_fox :
  HMAC.hexdigest (encode "key") (encode "The quick brown fox jumps over the lazy dog")
  = "f7bc83f430538424b13298e6aa6fb143ef4d59a14946175997479dbc2d1a3cd8"%string.
Proof. vm_compute. reflexivity. Qed.

(** RFC 5869, test case 3: no salt, no info. *)
Example hkdf_rfc5869_case3 :
  hex (HKDF.derive 42 None [] (repeat x0b 22))
  = ("8da4e775a563c18f715f802a063c5a31b8a11f5c5ee1879ec3454e5f3c738d2d"
     ++ "9d201395faa4b61a96c8")%string.
Proof. vm_compute. reflexivity. Qed.

Example b64encode_foobar :
  Base64.urlsafe_b64encode (encode "foobar") = encode "Zm9vYmFy".
Proof. vm_compute. reflexivity. Qed.

(** The decoder is lenient: unused trailing bits, either alphabet and
    characters outside the alphabet are all accepted. *)
Example b64decode_lenient :
  Base64.urlsafe_b64decode (encode "QQ==") = Some (encode "A")
  /\ Base64.urlsafe_b64decode (encode "QR==") = Some (encode "A")
  /\ Base64.urlsafe_b64decode (encode "Q-==") = Base64.urlsafe_b64decode (encode "Q+==")
  /\ Base64.urlsafe_b64decode (encode "Q Q==") = Some (encode "A")
  /\ Base64.urlsafe_b64decode (encode "QQ=") = None.
Proof. vm_compute. repeat split. Qed.

(** FIPS 197, appendix C.1. *)
Example aes128_fips197 :
  hex (AES.bytes_of_block
         (AES.encrypt_block
            ((x00, x01, x02, x03), (x04, x05, x06, x07), (x08, x09, x0a, x0b), (x0c, x0d, x0e, x0f))
            ((x00, x11, x22, x33), (x44, x55, x66, x77), (x88, x99, xaa, xbb), (xcc, xdd, xee, xff))))
  = "69c4e0d86a7b0430d8cdb78070b4c55a"%string.
Proof. vm_compute. reflexivity. Qed.

(** The Fernet specification's vector: [hello] at 1985-10-26T01:20:00-07:00
    under the IV 0, 1, ..., 15. *)
Example fernet_spec_vector :
  match Fernet.Fernet (encode "cw_0x689RpI-jtRR7oE8h_eQsKImvJapLeSbXpwF4e4=") with
  | inr f =>
      Fernet.encrypt_from_parts f (encode "hello") 499162800
        ((x00, x01, x02, x03), (x04, x05, x06, x07), (x08, x09, x0a, x0b), (x0c, x0d, x0e, x0f))
      = inr (encode ("gAAAAAAdwJ6wAAECAwQFBgcICQoLDA0ODy021cpGVWKZ_eEwCGM4BLLF_5CV9dOPmr"
                     ++ "huVUPgJobwOz7JcbmrR64jVmpU4IwqDA=="))
  | inl _ => False
  end.
Proof. vm_compute. reflexivity. Qed.

(** * Bytes *)

Lemma byte_of_to_nat (b : byte) : byte_of_N (N.of_nat (Byte.to_nat b)) = b.
Proof. destruct b; reflexivity. Qed.

Lemma all_bytes_complete (b : byte) : In b all_bytes.
Proof.
  unfold all_bytes. apply in_map_iff. exists (Byte.to_nat b). split.
  - apply byte_of_to_nat.
  - apply in_seq. pose proof (Byte.to_nat_bounded b). lia.
Qed.

(** A property of one or two bytes holds everywhere once it has been
    evaluated on every byte. *)
Lemma forall_bytes (P : byte -> bool) :
  forallb P all_bytes = true -> forall b, P b = true.
Proof.
  intros H b. rewrite forallb_forall in H. apply H, all_bytes_complete.
Qed.

Lemma forall_bytes2 (P : byte -> byte -> bool) :
  forallb (fun a => forallb (P a) all_bytes) all_bytes = true ->
  forall a b, P a b = true.
Proof.
  intros H a b. apply forall_bytes with (P := P a).
  apply (forall_bytes (fun a => forallb (P a) all_bytes) H).
Qed.

Lemma bytes_eqb_eq (a b : bytes) : bytes_eqb a b = true <-> a = b.
Proof.
  unfold bytes_eqb. destruct (list_eq_dec Byte.byte_eq_dec a b); split; congruence.
Qed.

Lemma bytes_eqb_refl (a : bytes) : bytes_eqb a a = true.
Proof. now apply bytes_eqb_eq. Qed.

Ltac bits_of b :=
  rewrite <- (of_bits_to_bits b);
  destruct (to_bits b) as (? & ? & ? & ? & ? & ? & ? & ?).

Lemma bxor_comm (a b : byte) : bxor a b = bxor b a.
Proof.
  bits_of a. bits_of b. unfold bxor. rewrite !to_bits_of_bits. cbn [xor_bits].
  repeat (f_equal; try apply xorb_comm).
Qed.

Lemma bxor_assoc (a b c : byte) : bxor (bxor a b) c = bxor a (bxor b c).
Proof.
  bits_of a. bits_of b. bits_of c. unfold bxor. rewrite !to_bits_of_bits. cbn [xor_bits].
  repeat (f_equal; try apply xorb_assoc).
Qed.

Lemma bxor_nilpotent (a : byte) : bxor a a = x00.
Proof.
  bits_of a. unfold bxor. rewrite !to_bits_of_bits. cbn [xor_bits].
  rewrite !xorb_nilpotent. reflexivity.
Qed.

Lemma bxor_0_r (a : byte) : bxor a x00 = a.
Proof.
  bits_of a. unfold bxor. rewrite !to_bits_of_bits. cbn [xor_bits to_bits].
  rewrite !xorb_false_r. reflexivity.
Qed.

Lemma bxor_cancel_r (a b : byte) : bxor (bxor a b) b = a.
Proof. now rewrite bxor_assoc, bxor_nilpotent, bxor_0_r. Qed.

(** * Lengths of digests and keys *)

Lemma be_bytes_length (k : nat) (n : N) : List.length (be_bytes k n) = k.
Proof.
  revert n. induction k as [|k IH]; intros n; simpl.
  - reflexivity.
  - rewrite length_app, IH. simpl. lia.
Qed.

Lemma sha256_length (msg : bytes) : List.length (SHA256.sha256 msg) = 32.
Proof.
  unfold SHA256.sha256, SHA256.output.
  rewrite !length_app, !be_bytes_length. reflexivity.
Qed.

Lemma hmac_sha256_length (key msg : bytes) : List.length (HMAC.hmac_sha256 key msg) = 32.
Proof. unfold HMAC.hmac_sha256. apply sha256_length. Qed.

Lemma derive_32_length (salt : option bytes) (info key_material : bytes) :
  List.length (HKDF.derive 32 salt info key_material) = 32.
Proof.
  unfold HKDF.derive, HKDF.expand.
  change ((32 + HKDF.digest_size - 1) / HKDF.digest_size) with 1.
  cbn [HKDF.expand_blocks]. rewrite app_nil_r.
  rewrite firstn_all2; rewrite hmac_sha256_length; lia.
Qed.

Lemma hex_length (l : bytes) : String.length (hex l) = 2 * List.length l.
Proof. induction l as [|b l IH]; simpl; [reflexivity|]. rewrite IH. lia. Qed.

Lemma hexdigest_length (key msg : bytes) : String.length (HMAC.hexdigest key msg) = 64.
Proof. unfold HMAC.hexdigest. now rewrite hex_length, hmac_sha256_length. Qed.

(** * Base64: decoding what was encoded *)

Module Base64Facts.
Import Base64 Sextets.
Local Open Scope N_scope.

Lemma reads_back_spec (i : N) :
  reads_back i = true ->
  Byte.eqb (wire i) pad_char = false /\ a2b_value (wire i) = Some i.
Proof.
  unfold reads_back. intros H. apply andb_true_iff in H as [H1 H2].
  apply negb_true_iff in H1. split; [assumption|].
  destruct (a2b_value (wire i)) as [v|]; [|discriminate].
  apply N.eqb_eq in H2. now subst.
Qed.

Lemma reads_back1 a : reads_back (sextet1 a) = true.
Proof. revert a. apply forall_bytes. vm_compute. reflexivity. Qed.

Lemma reads_back2 a b : reads_back (sextet2 a b) = true.
Proof. revert a b. apply forall_bytes2. vm_compute. reflexivity. Qed.

Lemma reads_back3 b c : reads_back (sextet3 b c) = true.
Proof. revert b c. apply forall_bytes2. vm_compute. reflexivity. Qed.

Lemma reads_back4 c : reads_back (sextet4 c) = true.
Proof. revert c. apply forall_bytes. vm_compute. reflexivity. Qed.

Lemma reads_back2_last a : reads_back (sextet2_last a) = true.
Proof. revert a. apply forall_bytes. vm_compute. reflexivity. Qed.

Lemma reads_back3_last b : reads_back (sextet3_last b) = true.
Proof. revert b. apply forall_bytes. vm_compute. reflexivity. Qed.

(** The bytes the decoder rebuilds from consecutive sextets. *)
Lemma first_byte a b :
  byte_of_N (N.lor (N.shiftl (sextet1 a) 2) (N.shiftr (sextet2 a b) 4)) = a.
Proof.
  apply Byte.byte_dec_bl. revert a b.
  apply (forall_bytes2 (fun a b =>
    Byte.eqb (byte_of_N (N.lor (N.shiftl (sextet1 a) 2) (N.shiftr (sextet2 a b) 4))) a)).
  vm_compute. reflexivity.
Qed.

Lemma first_byte_last a :
  byte_of_N (N.lor (N.shiftl (sextet1 a) 2) (N.shiftr (sextet2_last a) 4)) = a.
Proof.
  apply Byte.byte_dec_bl. revert a.
  apply (forall_bytes (fun a =>
    Byte.eqb (byte_of_N (N.lor (N.shiftl (sextet1 a) 2) (N.shiftr (sextet2_last a) 4))) a)).
  vm_compute. reflexivity.
Qed.

Lemma left_after2 a b : N.land (sextet2 a b) 15 = N.land (Byte.to_N b / 16) 15.
Proof.
  apply N.eqb_eq. revert a b.
  apply (forall_bytes2 (fun a b =>
    N.land (sextet2 a b) 15 =? N.land (Byte.to_N b / 16) 15)).
  vm_compute. reflexivity.
Qed.

Lemma second_byte b c :
  byte_of_N (N.lor (N.shiftl (N.land (Byte.to_N b / 16) 15) 4) (N.shiftr (sextet3 b c) 2)) = b.
Proof.
  apply Byte.byte_dec_bl. revert b c.
  apply (forall_bytes2 (fun b c =>
    Byte.eqb (byte_of_N (N.lor (N.shiftl (N.land (Byte.to_N b / 16) 15) 4)
                               (N.shiftr (sextet3 b c) 2))) b)).
  vm_compute. reflexivity.
Qed.

Lemma second_byte_last b :
  byte_of_N (N.lor (N.shiftl (N.land (Byte.to_N b / 16) 15) 4) (N.shiftr (sextet3_last b) 2)) = b.
Proof.
  apply Byte.byte_dec_bl. revert b.
  apply (forall_bytes (fun b =>
    Byte.eqb (byte_of_N (N.lor (N.shiftl (N.land (Byte.to_N b / 16) 15) 4)
                               (N.shiftr (sextet3_last b) 2))) b)).
  vm_compute. reflexivity.
Qed.

Lemma left_after3 b c : N.land (sextet3 b c) 3 = Byte.to_N c / 64.
Proof.
  apply N.eqb_eq. revert b c.
  apply (forall_bytes2 (fun b c => N.land (sextet3 b c) 3 =? Byte.to_N c / 64)).
  vm_compute. reflexivity.
Qed.

Lemma third_byte c :
  byte_of_N (N.lor (N.shiftl (Byte.to_N c / 64) 6) (sextet4 c)) = c.
Proof.
  apply Byte.byte_dec_bl. revert c.
  apply (forall_bytes (fun c =>
    Byte.eqb (byte_of_N (N.lor (N.shiftl (Byte.to_N c / 64) 6) (sextet4 c))) c)).
  vm_compute. reflexivity.
Qed.

(** One step of the decoder on a data character. *)
Lemma a2b_loop_data i rest quad_pos leftchar pads out :
  reads_back i = true ->
  a2b_loop (wire i :: rest) quad_pos leftchar pads out =
  match quad_pos with
  | 0%nat => a2b_loop rest 1 i 0 out
  | 1%nat =>
      a2b_loop rest 2 (N.land i 15) 0
        (byte_of_N (N.lor (N.shiftl leftchar 2) (N.shiftr i 4)) :: out)
  | 2%nat =>
      a2b_loop rest 3 (N.land i 3) 0
        (byte_of_N (N.lor (N.shiftl leftchar 4) (N.shiftr i 2)) :: out)
  | _ => a2b_loop rest 0 0 0 (byte_of_N (N.lor (N.shiftl leftchar 6) i) :: out)
  end.
Proof.
  intros H. apply reads_back_spec in H as [H1 H2].
  cbn [a2b_loop]. rewrite H1, H2. reflexivity.
Qed.

Lemma list_ind3 (A : Type) (P : list A -> Prop) :
  P [] -> (forall a, P [a]) -> (forall a b, P [a; b]) ->
  (forall a b c l, P l -> P (a :: b :: c :: l)) ->
  forall l, P l.
Proof.
  intros H0 H1 H2 H3 l.
  enough (P l /\ (forall a, P (a :: l)) /\ (forall a b, P (a :: b :: l))) by tauto.
  induction l as [|x l (IH0 & IH1 & IH2)]; repeat split; auto.
Qed.

Lemma decode_encode_loop (s out : bytes) :
  a2b_loop (map urlsafe_decode_translation (urlsafe_b64encode s)) 0 0 0 out
  = Some (rev out ++ s).
Proof.
  unfold urlsafe_b64encode. revert out.
  induction s as [|a|a b|a b c s IH] using list_ind3; intros out.
  - cbn. now rewrite app_nil_r.
  - cbn [b2a_base64 map].
    change (a2b_loop (wire (sextet1 a) :: wire (sextet2_last a) :: x3d :: x3d :: nil) 0 0 0 out
            = Some (rev out ++ [a])).
    rewrite a2b_loop_data by apply reads_back1.
    rewrite a2b_loop_data by apply reads_back2_last.
    rewrite first_byte_last. cbn. reflexivity.
  - cbn [b2a_base64 map].
    change (a2b_loop (wire (sextet1 a) :: wire (sextet2 a b) :: wire (sextet3_last b)
                        :: x3d :: nil) 0 0 0 out
            = Some (rev out ++ [a; b])).
    rewrite a2b_loop_data by apply reads_back1.
    rewrite a2b_loop_data by apply reads_back2.
    rewrite a2b_loop_data by apply reads_back3_last.
    rewrite first_byte, left_after2, second_byte_last. cbn.
    now rewrite <- app_assoc.
  - cbn [b2a_base64 map].
    change (a2b_loop (wire (sextet1 a) :: wire (sextet2 a b) :: wire (sextet3 b c)
                        :: wire (sextet4 c)
                        :: map urlsafe_decode_translation
                             (map urlsafe_encode_translation (b2a_base64 s))) 0 0 0 out
            = Some (rev out ++ a :: b :: c :: s)).
    rewrite a2b_loop_data by apply reads_back1.
    rewrite a2b_loop_data by apply reads_back2.
    rewrite a2b_loop_data by apply reads_back3.
    rewrite a2b_loop_data by apply reads_back4.
    rewrite first_byte, left_after2, second_byte, left_after3, third_byte.
    rewrite IH. cbn [rev]. now rewrite <- !app_assoc.
Qed.

End Base64Facts.

(** [urlsafe_b64decode] inverts [urlsafe_b64encode]. *)
Lemma urlsafe_b64decode_encode (s : bytes) :
  Base64.urlsafe_b64decode (Base64.urlsafe_b64encode s) = Some s.
Proof.
  unfold Base64.urlsafe_b64decode, Base64.a2b_base64.
  now rewrite Base64Facts.decode_encode_loop.
Qed.

(** * AES: the inverse cipher undoes the cipher *)

Module AESFacts.
Import AES.

Lemma inv_sbox_sbox (a : byte) : inv_sbox (sbox a) = a.
Proof.
  apply Byte.byte_dec_bl. revert a.
  apply (forall_bytes (fun a => Byte.eqb (inv_sbox (sbox a)) a)).
  vm_compute. reflexivity.
Qed.

Lemma inv_sub_bytes_sub_bytes (s : block) : inv_sub_bytes (sub_bytes s) = s.
Proof.
  destruct s as [[[[[[a0 a1] a2] a3] [[[b0 b1] b2] b3]] [[[c0 c1] c2] c3]] [[[d0 d1] d2] d3]].
  unfold inv_sub_bytes, sub_bytes. cbn [map_block map_word].
  now rewrite !inv_sbox_sbox.
Qed.

Lemma inv_shift_rows_shift_rows (s : block) : inv_shift_rows (shift_rows s) = s.
Proof.
  destruct s as [[[[[[a0 a1] a2] a3] [[[b0 b1] b2] b3]] [[[c0 c1] c2] c3]] [[[d0 d1] d2] d3]].
  reflexivity.
Qed.

Lemma inv_mix_column_mix_column (w : word) : inv_mix_column (mix_column w) = w.
Proof.
  destruct w as [[[a b] c] d].
  bits_of a. bits_of b. bits_of c. bits_of d.
  unfold inv_mix_column, mix_column, gmul, bit_list.
  cbn [to_bits gmul_bits].
  unfold bxor, xtime.
  repeat (rewrite ?to_bits_of_bits; cbn [xor_bits xtime_bits to_bits]).
  repeat f_equal; btauto.
Qed.

Lemma inv_mix_columns_mix_columns (s : block) : inv_mix_columns (mix_columns s) = s.
Proof.
  destruct s as [[[a b] c] d]. unfold inv_mix_columns, mix_columns. cbn [map_block].
  now rewrite !inv_mix_column_mix_column.
Qed.

Lemma xor_word_cancel (v w : word) : xor_word (xor_word v w) w = v.
Proof.
  destruct v as [[[a b] c] d], w as [[[a' b'] c'] d']. cbn [xor_word].
  now rewrite !bxor_cancel_r.
Qed.

Lemma xor_block_cancel (s k : block) : xor_block (xor_block s k) k = s.
Proof.
  destruct s as [[[a b] c] d], k as [[[a' b'] c'] d']. cbn [xor_block].
  now rewrite !xor_word_cancel.
Qed.

Lemma inv_rounds_rounds (ks : list block) (s : block) : inv_rounds ks (rounds ks s) = s.
Proof.
  revert s. induction ks as [|k ks IH]; intros s.
  - reflexivity.
  - destruct ks as [|k' ks].
    + cbn [rounds inv_rounds].
      now rewrite xor_block_cancel, inv_shift_rows_shift_rows, inv_sub_bytes_sub_bytes.
    + change (rounds (k :: k' :: ks) s)
        with (rounds (k' :: ks) (xor_block (mix_columns (shift_rows (sub_bytes s))) k)).
      change (inv_rounds (k :: k' :: ks) ?x)
        with (inv_sub_bytes (inv_shift_rows (inv_mix_columns
                (xor_block (inv_rounds (k' :: ks) x) k)))).
      rewrite IH, xor_block_cancel, inv_mix_columns_mix_columns,
        inv_shift_rows_shift_rows, inv_sub_bytes_sub_bytes.
      reflexivity.
Qed.

(** Decrypting a block under the key it was encrypted with gives it back. *)
Lemma decrypt_block_encrypt_block (key s : block) :
  decrypt_block key (encrypt_block key s) = s.
Proof.
  unfold decrypt_block, encrypt_block. now rewrite inv_rounds_rounds, xor_block_cancel.
Qed.

Lemma cbc_decrypt_encrypt (key iv : block) (ps : list block) :
  cbc_decrypt key iv (cbc_encrypt key iv ps) = ps.
Proof.
  revert iv. induction ps as [|p ps IH]; intros iv; cbn [cbc_encrypt cbc_decrypt].
  - reflexivity.
  - now rewrite decrypt_block_encrypt_block, xor_block_cancel, IH.
Qed.

Lemma cbc_encrypt_length (key iv : block) (ps : list block) :
  List.length (cbc_encrypt key iv ps) = List.length ps.
Proof.
  revert iv. induction ps as [|p ps IH]; intros iv; cbn [cbc_encrypt List.length]; auto.
Qed.

Lemma cbc_decrypt_length (key iv : block) (cs : list block) :
  List.length (cbc_decrypt key iv cs) = List.length cs.
Proof.
  revert iv. induction cs as [|c cs IH]; intros iv; cbn [cbc_decrypt List.length]; auto.
Qed.

(** ** Blocks and byte strings *)

Lemma bytes_of_block_length (s : block) : List.length (bytes_of_block s) = 16.
Proof.
  destruct s as [[[[[[a0 a1] a2] a3] [[[b0 b1] b2] b3]] [[[c0 c1] c2] c3]] [[[d0 d1] d2] d3]].
  reflexivity.
Qed.

Lemma bytes_of_blocks_length (bs : list block) :
  List.length (bytes_of_blocks bs) = 16 * List.length bs.
Proof.
  unfold bytes_of_blocks. induction bs as [|b bs IH]; cbn [flat_map List.length].
  - reflexivity.
  - rewrite length_app, bytes_of_block_length, IH. lia.
Qed.

Lemma blocks_of_bytes_cons (s : block) (l : bytes) :
  blocks_of_bytes (bytes_of_block s ++ l) =
  match blocks_of_bytes l with
  | Some bs => Some (s :: bs)
  | None => None
  end.
Proof.
  destruct s as [[[[[[a0 a1] a2] a3] [[[b0 b1] b2] b3]] [[[c0 c1] c2] c3]] [[[d0 d1] d2] d3]].
  reflexivity.
Qed.

Lemma blocks_of_bytes_of_blocks (bs : list block) :
  blocks_of_bytes (bytes_of_blocks bs) = Some bs.
Proof.
  unfold bytes_of_blocks. induction bs as [|b bs IH]; cbn [flat_map].
  - reflexivity.
  - now rewrite blocks_of_bytes_cons, IH.
Qed.

Lemma block_of_bytes_of_block (s : block) : block_of_bytes (bytes_of_block s) = Some s.
Proof.
  unfold block_of_bytes. rewrite <- (app_nil_r (bytes_of_block s)).
  now rewrite blocks_of_bytes_cons.
Qed.

(** A byte string of sixteen more bytes than [n] starts with a block. *)
Lemma split_block (l : bytes) :
  16 <= List.length l ->
  exists s rest, l = bytes_of_block s ++ rest.
Proof.
  intros H.
  do 16 (destruct l as [|? l]; [cbn in H; lia|]).
  eexists (((_, _, _, _), (_, _, _, _), (_, _, _, _), (_, _, _, _))), l.
  reflexivity.
Qed.

Lemma blocks_of_bytes_some (n : nat) (l : bytes) :
  List.length l = 16 * n ->
  exists bs, blocks_of_bytes l = Some bs /\ bytes_of_blocks bs = l /\ List.length bs = n.
Proof.
  revert l. induction n as [|n IH]; intros l H.
  - destruct l; [|cbn in H; lia]. exists []. repeat split.
  - destruct (split_block l) as (s & rest & ->); [lia|].
    rewrite length_app, bytes_of_block_length in H.
    destruct (IH rest) as (bs & E1 & E2 & E3); [lia|].
    exists (s :: bs). rewrite blocks_of_bytes_cons, E1.
    repeat split; cbn [bytes_of_blocks flat_map List.length]; [|lia].
    unfold bytes_of_blocks in E2. now rewrite E2.
Qed.

Lemma blocks_of_bytes_spec (l : bytes) (bs : list block) :
  blocks_of_bytes l = Some bs -> bytes_of_blocks bs = l.
Proof.
  remember (List.length l) as n eqn:Hn. revert l bs Hn.
  induction n as [n IH] using lt_wf_ind. intros l bs Hn H.
  destruct l as [|x l'].
  - cbn in H. injection H as <-. reflexivity.
  - destruct (Nat.le_gt_cases 16 (List.length (x :: l'))) as [Hlen|Hlen].
    + destruct (split_block (x :: l') Hlen) as (s & rest & E).
      rewrite E in H |- *. rewrite blocks_of_bytes_cons in H.
      destruct (blocks_of_bytes rest) as [bs'|] eqn:E'; [|discriminate].
      injection H as <-. cbn [bytes_of_blocks flat_map]. f_equal.
      apply (IH (List.length rest)); [|reflexivity|assumption].
      rewrite Hn, E, length_app, bytes_of_block_length. lia.
    + exfalso. clear IH Hn.
      do 15 (destruct l' as [|? l']; [cbn in H; discriminate|]).
      cbn in Hlen. lia.
Qed.

Lemma block_of_bytes_some (l : bytes) :
  List.length l = 16 -> exists s, block_of_bytes l = Some s.
Proof.
  intros H. destruct (blocks_of_bytes_some 1 l) as (bs & E1 & _ & E3); [lia|].
  destruct bs as [|s [|? ?]]; try discriminate.
  exists s. unfold block_of_bytes. now rewrite E1.
Qed.

(** ** Padding *)

Lemma pad_amount (n : nat) : 1 <= block_size - n mod block_size <= 16.
Proof.
  unfold block_size. pose proof (Nat.mod_upper_bound n 16). lia.
Qed.

Lemma byte_of_small (n : nat) : n <= 255 -> Byte.to_nat (byte_of_N (N.of_nat n)) = n.
Proof.
  intros H. unfold byte_of_N. rewrite N.mod_small by lia.
  destruct (Byte.of_N (N.of_nat n)) as [b|] eqn:E.
  - apply Byte.to_of_N in E. rewrite Byte.to_nat_via_N, E. lia.
  - apply Byte.of_N_None_iff in E. lia.
Qed.

Lemma pkcs7_pad_length (data : bytes) :
  exists n, List.length (pkcs7_pad data) = 16 * S n.
Proof.
  unfold pkcs7_pad, block_size. rewrite length_app, repeat_length.
  exists (List.length data / 16).
  pose proof (Nat.div_mod_eq (List.length data) 16).
  pose proof (Nat.mod_upper_bound (List.length data) 16). lia.
Qed.

Lemma forallb_repeat (A : Type) (f : A -> bool) (x : A) (n : nat) :
  f x = true -> forallb f (repeat x n) = true.
Proof. intros H. induction n; cbn; [reflexivity|]. now rewrite H. Qed.

Lemma rev_repeat (A : Type) (x : A) (n : nat) : rev (repeat x n) = repeat x n.
Proof.
  induction n as [|n IH]; [reflexivity|].
  cbn [repeat rev]. rewrite IH. symmetry. apply repeat_cons.
Qed.

Lemma pkcs7_unpad_app (data : bytes) (p : byte) (n : nat) :
  1 <= n <= block_size -> Byte.to_nat p = n ->
  pkcs7_unpad (data ++ repeat p n) = Some data.
Proof.
  intros Hn Hp. unfold pkcs7_unpad.
  rewrite rev_app_distr, rev_repeat.
  destruct n as [|n']; [lia|].
  change (repeat p (S n') ++ rev data) with (p :: (repeat p n' ++ rev data)).
  cbv beta iota. rewrite Hp.
  change (p :: (repeat p n' ++ rev data)) with (repeat p (S n') ++ rev data).
  rewrite length_app, repeat_length.
  rewrite firstn_app, repeat_length, Nat.sub_diag, firstn_O, app_nil_r.
  rewrite firstn_all2 by (rewrite repeat_length; lia).
  rewrite forallb_repeat by apply Byte.byte_dec_lb, eq_refl.
  replace (Nat.leb 1 (S n')) with true by (symmetry; apply Nat.leb_le; lia).
  replace (Nat.leb (S n') block_size) with true by (symmetry; apply Nat.leb_le; lia).
  replace (Nat.leb (S n') (List.length data + S n')) with true
    by (symmetry; apply Nat.leb_le; lia).
  cbn [andb].
  replace (List.length data + S n' - S n') with (List.length data) by lia.
  rewrite firstn_app, Nat.sub_diag, firstn_O, app_nil_r, firstn_all. reflexivity.
Qed.

(** Removing the padding that was added gives the data back. *)
Lemma pkcs7_unpad_pad (data : bytes) : pkcs7_unpad (pkcs7_pad data) = Some data.
Proof.
  unfold pkcs7_pad. pose proof (pad_amount (List.length data)) as Hn.
  apply pkcs7_unpad_app.
  - unfold block_size in *. lia.
  - apply byte_of_small. lia.
Qed.

Lemma pkcs7_unpad_shorter (padded data : bytes) :
  pkcs7_unpad padded = Some data -> List.length data < List.length padded.
Proof.
  unfold pkcs7_unpad. destruct (rev padded) as [|p r] eqn:E; [discriminate|].
  destruct (_ && _) eqn:C; [|discriminate].
  intros H. injection H as <-.
  apply andb_true_iff in C as [C _]. apply andb_true_iff in C as [C C3].
  apply andb_true_iff in C as [C1 C2].
  apply Nat.leb_le in C1, C3. rewrite length_firstn. lia.
Qed.

End AESFacts.

(** * Fernet *)

Module FernetFacts.
Import Fernet AESFacts.

(** A key of 32 bytes, in base64, is accepted, and split in two halves. *)
Lemma Fernet_accepts (k : bytes) :
  List.length k = 32 ->
  exists f, Fernet (Base64.urlsafe_b64encode k) = inr f
            /\ signing_key f = firstn 16 k
            /\ AES.bytes_of_block (encryption_key f) = skipn 16 k.
Proof.
  intros Hk. unfold Fernet. rewrite urlsafe_b64decode_encode, Hk. cbn [Nat.eqb negb].
  destruct (blocks_of_bytes_some 1 (skipn 16 k)) as (bs & E1 & E2 & E3).
  { rewrite length_skipn. lia. }
  destruct bs as [|ek [|? ?]]; try discriminate.
  unfold AES.block_of_bytes. rewrite E1.
  eexists. split; [reflexivity|]. split; [reflexivity|].
  cbn [encryption_key]. rewrite <- E2. cbn. now rewrite app_nil_r.
Qed.

Lemma encrypt_from_parts_eq (f : t) (data : bytes) (current_time : N) (iv : AES.block) :
  (current_time < 2 ^ 64)%N ->
  exists ps,
    AES.blocks_of_bytes (AES.pkcs7_pad data) = Some ps
    /\ AES.bytes_of_blocks ps = AES.pkcs7_pad data
    /\ encrypt_from_parts f data current_time iv
       = inr (Base64.urlsafe_b64encode
                (basic_parts f ps current_time iv
                 ++ HMAC.hmac_sha256 (signing_key f) (basic_parts f ps current_time iv))).
Proof.
  intros Ht. destruct (pkcs7_pad_length data) as [n Hn].
  destruct (blocks_of_bytes_some (S n) _ Hn) as (ps & E1 & E2 & _).
  exists ps. split; [assumption|]. split; [assumption|].
  unfold encrypt_from_parts. rewrite E1.
  replace (2 ^ 64 <=? current_time)%N with false
    by (symmetry; apply N.leb_gt; assumption).
  reflexivity.
Qed.

Lemma basic_parts_length (f : t) (ps : list AES.block) (current_time : N) (iv : AES.block) :
  List.length (basic_parts f ps current_time iv) = 25 + 16 * List.length ps.
Proof.
  unfold basic_parts.
  rewrite !length_app, bytes_of_block_length, bytes_of_blocks_length, cbc_encrypt_length.
  cbn [List.length]. rewrite be_bytes_length. lia.
Qed.

Lemma firstn_app_exact {A : Type} {n : nat} (a b : list A) :
  List.length a = n -> firstn n (a ++ b) = a.
Proof.
  intros <-. now rewrite firstn_app, Nat.sub_diag, firstn_O, app_nil_r, firstn_all.
Qed.

Lemma skipn_app_exact {A : Type} {n : nat} (a b : list A) :
  List.length a = n -> skipn n (a ++ b) = b.
Proof.
  intros <-. now rewrite skipn_app, Nat.sub_diag, skipn_all.
Qed.

(** Decrypting the bytes of a freshly made token. *)
Lemma decrypt_data_fresh (f : t) (data : bytes) (ps : list AES.block)
      (current_time : N) (iv : AES.block) :
  AES.bytes_of_blocks ps = AES.pkcs7_pad data ->
  decrypt_data f (basic_parts f ps current_time iv
                  ++ HMAC.hmac_sha256 (signing_key f) (basic_parts f ps current_time iv))
  = inr data.
Proof.
  intros Hps.
  set (basic := basic_parts f ps current_time iv).
  set (tag := HMAC.hmac_sha256 (signing_key f) basic).
  assert (Hlen : List.length (basic ++ tag) - 32 = List.length basic).
  { rewrite length_app. unfold tag. rewrite hmac_sha256_length. lia. }
  unfold decrypt_data, verify_signature. rewrite Hlen.
  rewrite (firstn_app_exact basic tag eq_refl), (skipn_app_exact basic tag eq_refl).
  fold tag. rewrite bytes_eqb_refl.
  unfold basic, basic_parts.
  set (header := x80 :: be_bytes 8 current_time).
  assert (Hh : List.length header = 9)
    by (unfold header; cbn [List.length]; now rewrite be_bytes_length).
  set (ct := AES.bytes_of_blocks (AES.cbc_encrypt (encryption_key f) iv ps)).
  rewrite <- !app_assoc.
  rewrite (skipn_app_exact header _ Hh).
  rewrite (firstn_app_exact (AES.bytes_of_block iv) _ (bytes_of_block_length iv)).
  rewrite block_of_bytes_of_block.
  rewrite (app_assoc header).
  rewrite (skipn_app_exact (header ++ AES.bytes_of_block iv) ct)
    by (rewrite length_app, bytes_of_block_length, Hh; reflexivity).
  unfold ct. rewrite blocks_of_bytes_of_blocks, cbc_decrypt_encrypt, Hps, pkcs7_unpad_pad.
  reflexivity.
Qed.

Lemma get_unverified_fresh (f : t) (ps : list AES.block) (current_time : N) (iv : AES.block)
      (tag : bytes) :
  exists ts,
    get_unverified_token_data
      (Base64.urlsafe_b64encode (basic_parts f ps current_time iv ++ tag))
    = inr (ts, basic_parts f ps current_time iv ++ tag).
Proof.
  unfold get_unverified_token_data. rewrite urlsafe_b64decode_encode.
  pose proof (basic_parts_length f ps current_time iv) as Hlen.
  unfold basic_parts in *. cbn [app] in *.
  cbn [Byte.eqb to_bits negb]. cbn [Bool.eqb andb negb].
  replace (Nat.ltb _ 9) with false.
  - eexists. reflexivity.
  - symmetry. apply Nat.ltb_ge. cbn [List.length] in *. rewrite length_app. lia.
Qed.

(** Round trip: whatever was encrypted under a key decrypts under it. *)
Lemma decrypt_encrypt (f : t) (data : bytes) (current_time : N) (iv : AES.block) :
  (current_time < 2 ^ 64)%N ->
  exists token,
    encrypt_from_parts f data current_time iv = inr token
    /\ decrypt f token = inr data.
Proof.
  intros Ht.
  destruct (encrypt_from_parts_eq f data current_time iv Ht) as (ps & _ & Hps & ->).
  eexists. split; [reflexivity|].
  unfold decrypt.
  destruct (get_unverified_fresh f ps current_time iv
              (HMAC.hmac_sha256 (signing_key f) (basic_parts f ps current_time iv)))
    as [ts ->].
  now apply decrypt_data_fresh.
Qed.


(** ** Failures *)

Lemma verify_signature_ok (f : t) (data : bytes) :
  verify_signature f data = inr tt ->
  32 <= List.length data
  /\ HMAC.hmac_sha256 (signing_key f) (firstn (List.length data - 32) data)
     = skipn (List.length data - 32) data.
Proof.
  unfold verify_signature. destruct (bytes_eqb _ _) eqn:E; [|discriminate].
  intros _. apply bytes_eqb_eq in E. split; [|assumption].
  apply (f_equal (@List.length byte)) in E.
  rewrite hmac_sha256_length, length_skipn in E. lia.
Qed.

Lemma verify_signature_error (f : t) (data : bytes) (e : Exn) :
  verify_signature f data = inl e -> e = InvalidToken.
Proof.
  unfold verify_signature. destruct (bytes_eqb _ _); [discriminate|]. congruence.
Qed.

(** Once the tag has verified, the sixteen bytes read as IV are there. *)
Lemma decrypt_data_error (f : t) (data : bytes) (e : Exn) :
  decrypt_data f data = inl e -> e = InvalidToken.
Proof.
  unfold decrypt_data.
  destruct (verify_signature f data) as [e'|[]] eqn:V.
  - intros H. injection H as <-. now apply verify_signature_error in V.
  - apply verify_signature_ok in V as [Hlen _].
    destruct (block_of_bytes_some (firstn 16 (skipn 9 data))) as [iv ->].
    { rewrite length_firstn, length_skipn. lia. }
    destruct (AES.blocks_of_bytes _) as [cs|]; [|congruence].
    destruct (AES.pkcs7_unpad _); congruence.
Qed.

Lemma get_unverified_error (token : bytes) (e : Exn) :
  get_unverified_token_data token = inl e -> e = InvalidToken.
Proof.
  unfold get_unverified_token_data.
  destruct (Base64.urlsafe_b64decode token) as [[|v data]|]; try congruence.
  destruct (negb _); [congruence|]. destruct (Nat.ltb _ _); congruence.
Qed.

Lemma get_unverified_data (token : bytes) (ts : N) (data : bytes) :
  get_unverified_token_data token = inr (ts, data) ->
  Base64.urlsafe_b64decode token = Some data.
Proof.
  unfold get_unverified_token_data.
  destruct (Base64.urlsafe_b64decode token) as [[|v d]|]; try congruence.
  destruct (negb _); [congruence|]. destruct (Nat.ltb _ _); congruence.
Qed.

(** Every failure of [decrypt] is the one [InvalidToken], whatever failed. *)
Lemma decrypt_error (f : t) (token : bytes) (e : Exn) :
  decrypt f token = inl e -> e = InvalidToken.
Proof.
  unfold decrypt.
  destruct (get_unverified_token_data token) as [e'|[ts data]] eqn:G.
  - intros H. injection H as <-. now apply get_unverified_error in G.
  - apply decrypt_data_error.
Qed.

(** [decrypt] reads the token only through its base64 decoding. *)
Lemma decrypt_same_decoding (f : t) (token token' : bytes) :
  Base64.urlsafe_b64decode token' = Base64.urlsafe_b64decode token ->
  decrypt f token' = decrypt f token.
Proof.
  intros H. unfold decrypt, get_unverified_token_data. now rewrite H.
Qed.

(** A plaintext comes out only of bytes whose tag verifies. *)
Lemma decrypt_ok_tag (f : t) (token plaintext : bytes) :
  decrypt f token = inr plaintext ->
  exists data,
    Base64.urlsafe_b64decode token = Some data
    /\ 32 <= List.length data
    /\ HMAC.hmac_sha256 (signing_key f) (firstn (List.length data - 32) data)
       = skipn (List.length data - 32) data.
Proof.
  unfold decrypt.
  destruct (get_unverified_token_data token) as [e'|[ts data]] eqn:G; [discriminate|].
  intros H. exists data. split; [now apply get_unverified_data in G|].
  unfold decrypt_data in H.
  destruct (verify_signature f data) as [e'|[]] eqn:V; [discriminate|].
  now apply verify_signature_ok.
Qed.

(** ** The plaintext is shorter than the token *)

Lemma a2b_loop_length (l : bytes) (quad_pos : nat) (leftchar : N) (pads : nat)
      (out decoded : bytes) :
  Base64.a2b_loop l quad_pos leftchar pads out = Some decoded ->
  List.length decoded <= List.length out + List.length l.
Proof.
  revert quad_pos leftchar pads out.
  induction l as [|ch l IH]; intros quad_pos leftchar pads out; cbn [Base64.a2b_loop].
  - destruct (Nat.eqb quad_pos 0); [|discriminate].
    intros H. injection H as <-. rewrite length_rev. lia.
  - cbn [List.length].
    destruct (Byte.eqb ch Base64.pad_char).
    + destruct (Nat.leb 2 quad_pos).
      * destruct (Nat.leb 4 (quad_pos + S pads)).
        -- intros H. injection H as <-. rewrite length_rev. lia.
        -- intros H. apply IH in H. lia.
      * intros H. apply IH in H. lia.
    + destruct (Base64.a2b_value ch) as [v|].
      * destruct quad_pos as [|[|[|q]]]; intros H; apply IH in H;
          cbn [List.length] in H; lia.
      * intros H. apply IH in H. lia.
Qed.

Lemma urlsafe_b64decode_length (token data : bytes) :
  Base64.urlsafe_b64decode token = Some data -> List.length data <= List.length token.
Proof.
  unfold Base64.urlsafe_b64decode, Base64.a2b_base64. intros H.
  apply a2b_loop_length in H. rewrite length_map in H. cbn [List.length] in H. lia.
Qed.

Lemma decrypt_shorter (f : t) (token plaintext : bytes) :
  decrypt f token = inr plaintext -> List.length plaintext < List.length token.
Proof.
  unfold decrypt.
  destruct (get_unverified_token_data token) as [e'|[ts data]] eqn:G; [discriminate|].
  apply get_unverified_data, urlsafe_b64decode_length in G.
  unfold decrypt_data.
  destruct (verify_signature f data); [discriminate|].
  destruct (AES.block_of_bytes _) as [iv|]; [|discriminate].
  destruct (AES.blocks_of_bytes _) as [cs|] eqn:B; [|discriminate].
  destruct (AES.pkcs7_unpad _) as [pt|] eqn:U; [|discriminate].
  intros H. injection H as <-.
  apply pkcs7_unpad_shorter in U.
  rewrite bytes_of_blocks_length, cbc_decrypt_length in U.
  apply blocks_of_bytes_spec in B. apply (f_equal (@List.length byte)) in B.
  rewrite bytes_of_blocks_length, length_skipn, length_firstn in B. lia.
Qed.

End FernetFacts.

Local Open Scope string_scope.

#[global] Opaque SHA256.sha256.

(** * Signature comparison *)

Lemma hex_digit_ascii (b : byte) : is_ascii (hex [b]) = true.
Proof. destruct b; reflexivity. Qed.

Lemma hex_cons (b : byte) (l : bytes) : hex (b :: l) = hex [b] ++ hex l.
Proof. reflexivity. Qed.

Lemma is_ascii_app (s t : string) : is_ascii (s ++ t) = is_ascii s && is_ascii t.
Proof.
  unfold is_ascii. induction s as [|c s IH]; simpl.
  - reflexivity.
  - rewrite IH. now rewrite andb_assoc.
Qed.

Lemma hex_ascii (l : bytes) : is_ascii (hex l) = true.
Proof.
  induction l as [|b l IH].
  - reflexivity.
  - rewrite hex_cons, is_ascii_app, hex_digit_ascii, IH. reflexivity.
Qed.

Lemma compare_digest_expected (key body : bytes) :
  compare_digest (HMAC.hexdigest key body) (HMAC.hexdigest key body) = inr true.
Proof.
  unfold compare_digest, HMAC.hexdigest.
  now rewrite hex_ascii, String.eqb_refl.
Qed.

Lemma compare_digest_ascii (key body : bytes) (provided : string) :
  is_ascii provided = true ->
  compare_digest (HMAC.hexdigest key body) provided
  = inr (String.eqb (HMAC.hexdigest key body) provided).
Proof.
  intros Hascii. unfold compare_digest, HMAC.hexdigest.
  now rewrite hex_ascii, Hascii.
Qed.

Lemma compare_digest_mismatch (key body : bytes) (provided : string) :
  is_ascii provided = true ->
  provided <> HMAC.hexdigest key body ->
  compare_digest (HMAC.hexdigest key body) provided = inr false.
Proof.
  intros Hascii Hneq. rewrite compare_digest_ascii by assumption.
  f_equal. apply String.eqb_neq. congruence.
Qed.

Lemma compare_digest_non_ascii (key body : bytes) (provided : string) :
  is_ascii provided = false ->
  compare_digest (HMAC.hexdigest key body) provided
  = inl (TypeError "comparing strings with non-ASCII characters is not supported").
Proof.
  intros Hn. unfold compare_digest. now rewrite Hn, andb_false_r.
Qed.

Lemma compare_digest_error (a b : string) (e : Exn) :
  compare_digest a b = inl e ->
  e = TypeError "comparing strings with non-ASCII characters is not supported".
Proof.
  unfold compare_digest. destruct (is_ascii a && is_ascii b); congruence.
Qed.

Lemma compare_digest_true_iff (key body : bytes) (provided : string) :
  compare_digest (HMAC.hexdigest key body) provided = inr true
  <-> provided = HMAC.hexdigest key body.
Proof.
  split.
  - intros H. destruct (is_ascii provided) eqn:E.
    + rewrite compare_digest_ascii in H by assumption.
      assert (E' : String.eqb (HMAC.hexdigest key body) provided = true)
        by (inversion H; reflexivity).
      symmetry. now apply String.eqb_eq.
    + rewrite compare_digest_non_ascii in H by assumption. inversion H.
  - intros ->. apply compare_digest_expected.
Qed.

(** * The handlers, case by case *)

Arguments HMAC.hexdigest : simpl never.
Arguments compare_digest : simpl never.
Arguments Fernet.decrypt : simpl never.
Arguments String.append : simpl never.


Lemma verify_hmac_cases g request provided :
  verify_hmac g request provided =
  if falsy provided then ([], inl (HTTPException 401 "X-Anchor-Signature header missing"))
  else
    match compare_digest (HMAC.hexdigest (AUTH_KEY g) (raw_body request)) (header_value provided) with
    | inl e => ([ReadBody], inl e)
    | inr false => ([ReadBody], inl invalid_signature)
    | inr true => ([ReadBody], inr true)
    end.
Proof.
  unfold verify_hmac. destruct (falsy provided); [reflexivity|].
  unfold request_body, lift. cbn.
  destruct (compare_digest _ _) as [e|[|]]; reflexivity.
Qed.

Lemma ingest_file_cases g w request provided filename :
  ingest_file g w request provided filename =
  match compare_digest (HMAC.hexdigest (AUTH_KEY g) (raw_body request)) provided with
  | inl e => ([ReadBody], inl e)
  | inr false => ([ReadBody], inl invalid_signature)
  | inr true =>
      match Fernet.decrypt (FERNET_INSTANCE g) (raw_body request) with
      | inl e =>
          ([ReadBody; Decrypt (raw_body request)],
           inl (HTTPException 400 ("Invalid encrypted payload or key: " ++ str e)))
      | inr _ =>
          if IS_PROD_ENVIRONMENT g then
            let blob_name := "uploads/" ++ utcnow_isoformat w ++ "_" ++ filename in
            let content_type :=
              match content_type_header request with
              | Some v => v
              | None => "application/octet-stream"
              end in
            ([ReadBody; Decrypt (raw_body request);
              Upload (BUCKET_NAME g) blob_name (raw_body request) content_type],
             match upload_from_string w (BUCKET_NAME g) blob_name (raw_body request) content_type with
             | Some e => inl (HTTPException 500 ("Failed to store file: " ++ str e))
             | None =>
                 inr (IngestAck filename (List.length (raw_body request))
                        ("gs://" ++ format_optional (BUCKET_NAME g) ++ "/" ++ blob_name))
             end)
          else
            ([ReadBody; Decrypt (raw_body request)],
             inr (IngestAck filename (List.length (raw_body request))
                    ("gs://local-bucket/uploads/mock_" ++ utcnow_isoformat w ++ "_" ++ filename)))
      end
  end.
Proof.
  unfold ingest_file, request_body, lift. cbn.
  destruct (compare_digest _ _) as [e|[|]]; try reflexivity.
  cbn. destruct (Fernet.decrypt _ _) as [e|pt]; [reflexivity|].
  cbn. destruct (IS_PROD_ENVIRONMENT g); [|reflexivity].
  cbn. destruct (upload_from_string _ _ _ _ _); reflexivity.
Qed.

Lemma handle_ingest_signed g w request provided :
  x_anchor_signature_header request = Some provided ->
  handle FileIngest g w request =
  respond (ingest_file g w request provided
             match filename_parameter request with
             | Some name => name
             | None => "uploaded.file"
             end).
Proof. intros H. unfold handle. now rewrite H. Qed.

Lemma handle_verified op g w request :
  op <> FileIngest ->
  handle op g w request =
  respond (bind (verify_hmac g request (x_anchor_signature_header request))
             (fun _ => match op with
                       | BootAnnounce => boot_endpoint g w request
                       | _ => directive_endpoint w
                       end)).
Proof. destruct op; [reflexivity|reflexivity|congruence]. Qed.

(** A successful ingest, read off its response. *)
Lemma ingest_success g w request provided filename t r :
  respond (ingest_file g w request provided filename) = (t, r) ->
  status r = 200 ->
  provided = HMAC.hexdigest (AUTH_KEY g) (raw_body request)
  /\ (exists plaintext, Fernet.decrypt (FERNET_INSTANCE g) (raw_body request) = inr plaintext)
  /\ t = ([ReadBody; Decrypt (raw_body request)]
          ++ if IS_PROD_ENVIRONMENT g
             then [Upload (BUCKET_NAME g) ("uploads/" ++ utcnow_isoformat w ++ "_" ++ filename)
                     (raw_body request)
                     match content_type_header request with
                     | Some v => v
                     | None => "application/octet-stream"
                     end]
             else [])%list
  /\ content r =
     IngestAck filename (List.length (raw_body request))
       (if IS_PROD_ENVIRONMENT g
        then "gs://" ++ format_optional (BUCKET_NAME g) ++ "/"
             ++ "uploads/" ++ utcnow_isoformat w ++ "_" ++ filename
        else "gs://local-bucket/uploads/mock_" ++ utcnow_isoformat w ++ "_" ++ filename).
Proof.
  rewrite ingest_file_cases.
  destruct (compare_digest _ _) as [e|[|]] eqn:C.
  - apply compare_digest_error in C. subst e.
    cbn. intros H; injection H as <- <-; cbn; intros; discriminate.
  - apply compare_digest_true_iff in C.
    destruct (Fernet.decrypt _ _) as [e|pt] eqn:D.
    + cbn. intros H; injection H as <- <-; cbn; intros; discriminate.
    + destruct (IS_PROD_ENVIRONMENT g).
      * cbn zeta. destruct (upload_from_string _ _ _ _ _).
        -- cbn. intros H; injection H as <- <-; cbn; intros; discriminate.
        -- cbn. intros H; injection H as <- <-. intros _.
           repeat split; eauto.
      * cbn. intros H; injection H as <- <-. intros _. repeat split; eauto.
  - cbn. intros H; injection H as <- <-; cbn; intros; discriminate.
Qed.

(** * The claims *)

(** C1, as the code has it.  A request without the [X-Anchor-Signature]
    header is rejected before its body is read: boot-announce and
    directive-fetch answer 401 from [verify_hmac]; file-ingest declares the
    header as required, so the framework answers 422 and the handler does
    not run.  No event is left in either case. *)
Theorem missing_signature_header g w request :
  x_anchor_signature_header request = None ->
  handle BootAnnounce g w request
  = ([], {| status := 401; content := Detail "X-Anchor-Signature header missing" |})
  /\ handle DirectiveFetch g w request
     = ([], {| status := 401; content := Detail "X-Anchor-Signature header missing" |})
  /\ handle FileIngest g w request
     = ([], {| status := 422; content := MissingParameter "header" "x-anchor-signature" |}).
Proof.
  intros H. unfold handle. rewrite H, verify_hmac_cases. repeat split.
Qed.

Lemma missing_signature_header_witness :
  exists g,
    startup (example_environment false) = inr g
    /\ (handle BootAnnounce g example_world
          (with_signature (test_invalid_signature "127.0.0.1") None)
        = ([], {| status := 401; content := Detail "X-Anchor-Signature header missing" |})
        /\ handle DirectiveFetch g example_world
             (with_signature (test_invalid_signature "127.0.0.1") None)
           = ([], {| status := 401; content := Detail "X-Anchor-Signature header missing" |})
        /\ handle FileIngest g example_world
             (with_signature (test_invalid_signature "127.0.0.1") None)
           = ([], {| status := 422;
                     content := MissingParameter "header" "x-anchor-signature" |})).
Proof.
  eexists. split.
  - vm_compute. reflexivity.
  - apply missing_signature_header. reflexivity.
Defined.

(** C1 as stated fails on file-ingest: the request of
    [test_invalid_signature] with its signature header removed gets 422
    there, not 401. *)
Lemma ingest_without_header_is_422 :
  exists g,
    startup (example_environment false) = inr g
    /\ x_anchor_signature_header (with_signature (test_invalid_signature "127.0.0.1") None)
       = None
    /\ status (snd (handle FileIngest g example_world
                      (with_signature (test_invalid_signature "127.0.0.1") None))) = 422
    /\ status (snd (handle FileIngest g example_world
                      (with_signature (test_invalid_signature "127.0.0.1") None))) <> 401.
Proof.
  eexists. split; [vm_compute; reflexivity|].
  split; [reflexivity|]. split; [reflexivity|]. cbn. discriminate.
Qed.

(** C2, at the input where the code departs from it.  The client's
    signature of [{}] with the high bit of its first character flipped
    differs from the expected signature, yet the comparison does not answer
    [False]: [hmac.compare_digest] raises [TypeError] on a non-ASCII string,
    and directive-fetch answers 500. *)
Lemma flipped_signature_raises :
  flip_high_bit (generate_signature (encode "{}")) <> generate_signature (encode "{}")
  /\ compare_digest (generate_signature (encode "{}"))
       (flip_high_bit (generate_signature (encode "{}")))
     = inl (TypeError "comparing strings with non-ASCII characters is not supported")
  /\ exists g,
       startup (example_environment false) = inr g
       /\ handle DirectiveFetch g example_world
            (with_signature (test_invalid_signature "127.0.0.1")
               (Some (flip_high_bit (generate_signature (encode "{}")))))
          = ([ReadBody], {| status := 500; content := InternalServerError |}).
Proof.
  split; [|split].
  - vm_compute. discriminate.
  - vm_compute. reflexivity.
  - eexists. split.
    + vm_compute. reflexivity.
    + vm_compute. reflexivity.
Qed.

(** C3, as the code has it.  A signature header that is present, made of
    ASCII characters, different from the hex HMAC-SHA256 of the raw body
    and, on boot-announce and directive-fetch, not empty, is answered 403;
    the body has been read and nothing else was done: no decryption, no
    call to a storage client. *)
Theorem invalid_signature_rejected op g w request provided :
  x_anchor_signature_header request = Some provided ->
  is_ascii provided = true ->
  provided <> HMAC.hexdigest (AUTH_KEY g) (raw_body request) ->
  op = FileIngest \/ provided <> "" ->
  handle op g w request
  = ([ReadBody], {| status := 403; content := Detail "Invalid signature" |}).
Proof.
  intros Hh Ha Hne Hop.
  pose proof (compare_digest_mismatch (AUTH_KEY g) (raw_body request) provided Ha Hne) as C.
  destruct op.
  - destruct Hop as [|Hop]; [discriminate|].
    unfold handle. rewrite Hh, verify_hmac_cases.
    destruct provided; [congruence|]. cbn [falsy header_value]. now rewrite C.
  - destruct Hop as [|Hop]; [discriminate|].
    unfold handle. rewrite Hh, verify_hmac_cases.
    destruct provided; [congruence|]. cbn [falsy header_value]. now rewrite C.
  - rewrite (handle_ingest_signed g w request provided Hh), ingest_file_cases, C. reflexivity.
Qed.

Lemma invalid_signature_rejected_witness :
  exists g,
    startup (example_environment false) = inr g
    /\ handle DirectiveFetch g example_world (test_invalid_signature "127.0.0.1")
       = ([ReadBody], {| status := 403; content := Detail "Invalid signature" |}).
Proof.
  eexists. split.
  - vm_compute. reflexivity.
  - apply invalid_signature_rejected with (provided := "invalid").
    + reflexivity.
    + reflexivity.
    + vm_compute. discriminate.
    + right. discriminate.
Defined.

(** C3 as stated fails on an empty header value: directive-fetch answers it
    401, as if the header were missing, although the header is present and
    differs from the expected signature. *)
Lemma empty_signature_is_401 :
  exists g,
    startup (example_environment false) = inr g
    /\ x_anchor_signature_header
         (with_signature (test_invalid_signature "127.0.0.1") (Some "")) = Some ""
    /\ "" <> HMAC.hexdigest (AUTH_KEY g) (raw_body (test_invalid_signature "127.0.0.1"))
    /\ handle DirectiveFetch g example_world
         (with_signature (test_invalid_signature "127.0.0.1") (Some ""))
       = ([], {| status := 401; content := Detail "X-Anchor-Signature header missing" |}).
Proof.
  eexists. split; [vm_compute; reflexivity|].
  split; [reflexivity|]. split; [vm_compute; discriminate|]. reflexivity.
Qed.

(** C4, as the code has it.  On a successful file-ingest the storage
    client receives the request body, that is the ciphertext as it came on
    the wire, once in production and never in local mode; that body
    decrypts, and the plaintext, which is never handed over, differs from
    it. *)
Theorem storage_receives_ciphertext g w request provided :
  x_anchor_signature_header request = Some provided ->
  status (snd (handle FileIngest g w request)) = 200 ->
  uploaded (fst (handle FileIngest g w request))
  = (if IS_PROD_ENVIRONMENT g then [raw_body request] else [])
  /\ exists plaintext,
       Fernet.decrypt (FERNET_INSTANCE g) (raw_body request) = inr plaintext
       /\ plaintext <> raw_body request.
Proof.
  intros Hh Hs. rewrite (handle_ingest_signed g w request provided Hh) in *.
  destruct (respond _) as [t r] eqn:E. cbn [fst snd] in *.
  destruct (ingest_success g w request provided _ t r E Hs) as (_ & (pt & D) & -> & _).
  split.
  - destruct (IS_PROD_ENVIRONMENT g); reflexivity.
  - exists pt. split; [assumption|].
    apply FernetFacts.decrypt_shorter in D. intros ->. lia.
Qed.

Lemma storage_receives_ciphertext_witness :
  exists g request,
    startup (example_environment true) = inr g
    /\ test_ingest "127.0.0.1" 1700000000 example_iv = inr request
    /\ (uploaded (fst (handle FileIngest g example_world request))
        = (if IS_PROD_ENVIRONMENT g then [raw_body request] else [])
        /\ exists plaintext,
             Fernet.decrypt (FERNET_INSTANCE g) (raw_body request) = inr plaintext
             /\ plaintext <> raw_body request).
Proof.
  eexists. eexists. split; [vm_compute; reflexivity|].
  split; [vm_compute; reflexivity|].
  eapply storage_receives_ciphertext.
  - reflexivity.
  - vm_compute. reflexivity.
Defined.

(** C4 as stated fails: in production the upload of [test_ingest]'s
    request carries the ciphertext, not the plaintext it decrypts to. *)
Lemma upload_is_not_plaintext :
  exists g request,
    startup (example_environment true) = inr g
    /\ test_ingest "127.0.0.1" 1700000000 example_iv = inr request
    /\ status (snd (handle FileIngest g example_world request)) = 200
    /\ Fernet.decrypt (FERNET_INSTANCE g) (raw_body request) = inr plaintext_content
    /\ uploaded (fst (handle FileIngest g example_world request)) = [raw_body request]
    /\ uploaded (fst (handle FileIngest g example_world request)) <> [plaintext_content].
Proof.
  eexists. eexists. split; [vm_compute; reflexivity|].
  split; [vm_compute; reflexivity|].
  split; [vm_compute; reflexivity|].
  split; [vm_compute; reflexivity|].
  split; [vm_compute; reflexivity|].
  vm_compute. discriminate.
Qed.

(** C5.  When the signature verifies and the body does not decrypt, for
    whatever reason, file-ingest answers 400 with the one detail
    ["Invalid encrypted payload or key: "]: the exception's text is empty,
    so the answer does not tell which check failed.  The body was read and
    decryption attempted; no storage client was called. *)
Theorem decryption_failure_is_400 g w request provided e :
  x_anchor_signature_header request = Some provided ->
  provided = HMAC.hexdigest (AUTH_KEY g) (raw_body request) ->
  Fernet.decrypt (FERNET_INSTANCE g) (raw_body request) = inl e ->
  handle FileIngest g w request
  = ([ReadBody; Decrypt (raw_body request)],
     {| status := 400; content := Detail "Invalid encrypted payload or key: " |}).
Proof.
  intros Hh Hp D.
  rewrite (handle_ingest_signed g w request provided Hh), ingest_file_cases.
  apply compare_digest_true_iff in Hp. rewrite Hp, D.
  apply FernetFacts.decrypt_error in D. subst e. reflexivity.
Qed.

Lemma decryption_failure_is_400_witness :
  exists g request,
    startup (example_environment true) = inr g
    /\ test_ingest "127.0.0.1" 1700000000 example_iv = inr request
    /\ handle FileIngest g example_world (with_body request (removelast (raw_body request)))
       = ([ReadBody; Decrypt (removelast (raw_body request))],
          {| status := 400; content := Detail "Invalid encrypted payload or key: " |}).
Proof.
  eexists. eexists. split; [vm_compute; reflexivity|].
  split; [vm_compute; reflexivity|].
  eapply decryption_failure_is_400 with (request := with_body _ _).
  - reflexivity.
  - vm_compute. reflexivity.
  - vm_compute. reflexivity.
Defined.

(** C6.  Under the encryption key derived from any master key, the Fernet
    instance exists, and whatever it encrypts (at a time that fits eight
    bytes, with any IV) it decrypts to the same plaintext. *)
Theorem fernet_round_trip (master : bytes) (plaintext : bytes) (current_time : N)
        (iv : AES.block) :
  (current_time < 2 ^ 64)%N ->
  exists fernet token,
    Fernet.Fernet (Base64.urlsafe_b64encode (hkdf_encrypt master)) = inr fernet
    /\ Fernet.encrypt_from_parts fernet plaintext current_time iv = inr token
    /\ Fernet.decrypt fernet token = inr plaintext.
Proof.
  intros Ht.
  destruct (FernetFacts.Fernet_accepts (hkdf_encrypt master)) as (f & Hf & _).
  { apply derive_32_length. }
  destruct (FernetFacts.decrypt_encrypt f plaintext current_time iv Ht) as (token & He & Hd).
  exists f, token. auto.
Qed.

Lemma fernet_round_trip_witness :
  exists fernet token,
    Fernet.Fernet (Base64.urlsafe_b64encode (hkdf_encrypt master_key_bytes)) = inr fernet
    /\ Fernet.encrypt_from_parts fernet plaintext_content 1700000000 example_iv = inr token
    /\ Fernet.decrypt fernet token = inr plaintext_content.
Proof.
  apply fernet_round_trip. reflexivity.
Defined.

(** C7, as the code has it.  For a token made by [encrypt] and any other
    byte string presented in its place, [decrypt] either fails with
    [InvalidToken], or the string decodes from base64 to the same bytes as
    the token and the original plaintext comes back, or it decodes to other
    bytes whose last 32 bytes are the HMAC-SHA256 of the rest under the
    signing key.  No plaintext is returned without that tag check. *)
Theorem decrypt_fails_closed (f : Fernet.t) (plaintext : bytes) (current_time : N)
        (iv : AES.block) (token token' : bytes) :
  Fernet.encrypt_from_parts f plaintext current_time iv = inr token ->
  Fernet.decrypt f token' = inl InvalidToken
  \/ (Base64.urlsafe_b64decode token' = Base64.urlsafe_b64decode token
      /\ Fernet.decrypt f token' = inr plaintext)
  \/ (exists data,
        Base64.urlsafe_b64decode token' = Some data
        /\ Some data <> Base64.urlsafe_b64decode token
        /\ HMAC.hmac_sha256 (Fernet.signing_key f) (firstn (List.length data - 32) data)
           = skipn (List.length data - 32) data).
Proof.
  intros He.
  assert (Ht : (current_time < 2 ^ 64)%N).
  { unfold Fernet.encrypt_from_parts in He.
    destruct (AES.blocks_of_bytes _); [|discriminate].
    destruct (2 ^ 64 <=? current_time)%N eqn:E; [discriminate|].
    now apply N.leb_gt. }
  destruct (FernetFacts.decrypt_encrypt f plaintext current_time iv Ht) as (tok & He' & Hd).
  assert (tok = token) by congruence. subst tok.
  destruct (Fernet.decrypt f token') as [e|pt] eqn:D.
  - left. apply FernetFacts.decrypt_error in D. now subst.
  - right.
    destruct (FernetFacts.decrypt_ok_tag f _ _ D) as (data & Hdec & _ & Htag).
    destruct (FernetFacts.decrypt_ok_tag f _ _ Hd) as (data0 & Hdec0 & _).
    destruct (list_eq_dec Byte.byte_eq_dec data data0) as [->|Hne].
    + left. assert (Hsame : Base64.urlsafe_b64decode token' = Base64.urlsafe_b64decode token)
        by congruence.
      split; [assumption|].
      rewrite <- D, (FernetFacts.decrypt_same_decoding f _ _ Hsame). assumption.
    + right. exists data. repeat split; [assumption| |assumption].
      rewrite Hdec0. congruence.
Qed.

Lemma decrypt_fails_closed_witness :
  exists f token,
    FERNET_INSTANCE_CLIENT = inr f
    /\ Fernet.encrypt_from_parts f plaintext_content 1700000000 example_iv = inr token
    /\ (Fernet.decrypt f (removelast token) = inl InvalidToken
        \/ (Base64.urlsafe_b64decode (removelast token) = Base64.urlsafe_b64decode token
            /\ Fernet.decrypt f (removelast token) = inr plaintext_content)
        \/ (exists data,
              Base64.urlsafe_b64decode (removelast token) = Some data
              /\ Some data <> Base64.urlsafe_b64decode token
              /\ HMAC.hmac_sha256 (Fernet.signing_key f)
                   (firstn (List.length data - 32) data)
                 = skipn (List.length data - 32) data)).
Proof.
  eexists. eexists. split; [vm_compute; reflexivity|].
  split; [vm_compute; reflexivity|].
  apply (decrypt_fails_closed _ plaintext_content 1700000000 example_iv).
  vm_compute. reflexivity.
Defined.

(** C7 as stated fails: replacing the [_] at index 9 of the client's token
    by [/] changes one byte of the token, and [decrypt] accepts the result,
    returning the plaintext. *)
Lemma modified_token_is_accepted :
  exists f token,
    FERNET_INSTANCE_CLIENT = inr f
    /\ Fernet.encrypt_from_parts f plaintext_content 1700000000 example_iv = inr token
    /\ nth 9 token x00 = x5f
    /\ replace_byte 9 x2f token <> token
    /\ List.length (replace_byte 9 x2f token) = List.length token
    /\ Fernet.decrypt f (replace_byte 9 x2f token) = inr plaintext_content
    /\ Fernet.decrypt f (replace_byte 9 x2f token) <> inl InvalidToken.
Proof.
  eexists. eexists. split; [vm_compute; reflexivity|].
  split; [vm_compute; reflexivity|].
  split; [vm_compute; reflexivity|].
  split; [vm_compute; discriminate|].
  split; [vm_compute; reflexivity|].
  split; [vm_compute; reflexivity|].
  vm_compute. discriminate.
Qed.

(** C9.  [ingest_file] reads the raw body exactly once; it decrypts only
    that body, and only when the signature header is the hex HMAC-SHA256
    of those bytes under the authentication key; when the header is
    anything else the handler stops there: the trace holds the read alone
    and the result is the 403 (or the comparison's [TypeError]). *)
Theorem verify_then_decrypt g w request provided filename :
  List.length (filter is_read_body (fst (ingest_file g w request provided filename))) = 1
  /\ (forall token,
        In (Decrypt token) (fst (ingest_file g w request provided filename)) ->
        token = raw_body request
        /\ provided = HMAC.hexdigest (AUTH_KEY g) (raw_body request))
  /\ (provided <> HMAC.hexdigest (AUTH_KEY g) (raw_body request) ->
      fst (ingest_file g w request provided filename) = [ReadBody]
      /\ (snd (ingest_file g w request provided filename)
          = inl (HTTPException 403 "Invalid signature")
          \/ snd (ingest_file g w request provided filename)
             = inl (TypeError "comparing strings with non-ASCII characters is not supported"))).
Proof.
  rewrite ingest_file_cases.
  destruct (compare_digest _ _) as [e|[|]] eqn:C.
  - apply compare_digest_error in C. subst e. cbn [fst snd]. split; [reflexivity|].
    split.
    + intros token [H|[]]. discriminate.
    + intros _. auto.
  - apply compare_digest_true_iff in C.
    assert (Hin : forall token t',
               In (Decrypt token) ([ReadBody; Decrypt (raw_body request)] ++ t')%list ->
               (forall ev, In ev t' -> is_read_body ev = false /\ forall x, ev <> Decrypt x) ->
               token = raw_body request).
    { intros token t' [H|[H|H]] Ht'; [discriminate|congruence|].
      destruct (Ht' _ H) as [_ Hn]. now destruct (Hn token). }
    destruct (Fernet.decrypt _ _) as [e|pt].
    + cbn [fst snd]. split; [reflexivity|]. split.
      * intros token [H|[H|[]]]; [discriminate|]. split; congruence.
      * intros Hne. contradiction.
    + destruct (IS_PROD_ENVIRONMENT g); cbn [fst snd].
      * split; [reflexivity|]. split.
        -- intros token [H|[H|[H|[]]]]; try discriminate. split; congruence.
        -- intros Hne. contradiction.
      * split; [reflexivity|]. split.
        -- intros token [H|[H|[]]]; [discriminate|]. split; congruence.
        -- intros Hne. contradiction.
  - cbn [fst snd]. split; [reflexivity|]. split.
    + intros token [H|[]]. discriminate.
    + intros _. auto.
Qed.

(** C10.  A successful file-ingest answers with the file name it used, the
    length of the body as received (the ciphertext) and a path built from
    that name; without a [filename] query parameter the name is
    ["uploaded.file"], in the answer and in the name of the stored object. *)
Theorem ingest_acknowledgement g w request provided :
  x_anchor_signature_header request = Some provided ->
  status (snd (handle FileIngest g w request)) = 200 ->
  (forall filename,
     filename = match filename_parameter request with
                | Some name => name
                | None => "uploaded.file"
                end ->
     content (snd (handle FileIngest g w request))
     = IngestAck filename (List.length (raw_body request))
         (if IS_PROD_ENVIRONMENT g
          then "gs://" ++ format_optional (BUCKET_NAME g) ++ "/"
               ++ "uploads/" ++ utcnow_isoformat w ++ "_" ++ filename
          else "gs://local-bucket/uploads/mock_" ++ utcnow_isoformat w ++ "_" ++ filename))
  /\ (filename_parameter request = None ->
      content (snd (handle FileIngest g w request))
      = IngestAck "uploaded.file" (List.length (raw_body request))
          (if IS_PROD_ENVIRONMENT g
           then "gs://" ++ format_optional (BUCKET_NAME g) ++ "/"
                ++ "uploads/" ++ utcnow_isoformat w ++ "_" ++ "uploaded.file"
           else "gs://local-bucket/uploads/mock_" ++ utcnow_isoformat w ++ "_"
                ++ "uploaded.file")
      /\ forall bucket name data content_type,
           In (Upload bucket name data content_type) (fst (handle FileIngest g w request)) ->
           name = "uploads/" ++ utcnow_isoformat w ++ "_" ++ "uploaded.file").
Proof.
  intros Hh Hs. rewrite (handle_ingest_signed g w request provided Hh) in *.
  destruct (respond _) as [t r] eqn:E. cbn [fst snd] in *.
  destruct (ingest_success g w request provided _ t r E Hs) as (_ & _ & Ht & Hc).
  split.
  - intros filename ->. exact Hc.
  - intros Hn. rewrite Hn in *. split; [exact Hc|].
    intros bucket name data content_type Hin. subst t.
    destruct Hin as [H|[H|H]]; try discriminate.
    destruct (IS_PROD_ENVIRONMENT g); [|destruct H].
    destruct H as [H|[]]. congruence.
Qed.

Lemma ingest_acknowledgement_witness :
  exists g request,
    startup (example_environment true) = inr g
    /\ test_ingest "127.0.0.1" 1700000000 example_iv = inr request
    /\ content (snd (handle FileIngest g example_world
                       (with_body (test_invalid_signature "127.0.0.1") (raw_body request))))
       = IngestAck "uploaded.file" 140
           "gs://envoy-uploads/uploads/2024-01-01T00:00:00_uploaded.file".
Proof.
  eexists. eexists. split; [vm_compute; reflexivity|].
  split; [vm_compute; reflexivity|].
  match goal with
  | |- content (snd (handle FileIngest ?g ?w ?r)) = _ =>
      destruct (ingest_acknowledgement g w r (generate_signature (raw_body r)))
        as [_ H]
  end.
  - reflexivity.
  - vm_compute. reflexivity.
  - exact (proj1 (H eq_refl)).
Defined.

(** * Further properties of the code *)

(** ** Start-up *)

Lemma b2a_base64_length (s : bytes) :
  List.length (Base64.b2a_base64 s) = 4 * ((List.length s + 2) / 3).
Proof.
  induction s as [|a|a b|a b c s IH] using Base64Facts.list_ind3;
    cbn [Base64.b2a_base64 List.length]; try reflexivity.
  rewrite IH.
  replace (S (S (S (List.length s))) + 2) with (List.length s + 2 + 1 * 3) by lia.
  rewrite Nat.div_add by lia. lia.
Qed.

Lemma urlsafe_b64encode_length (s : bytes) :
  List.length (Base64.urlsafe_b64encode s) = 4 * ((List.length s + 2) / 3).
Proof. unfold Base64.urlsafe_b64encode. now rewrite length_map, b2a_base64_length. Qed.

Lemma fernet_keys (key : string) :
  exists f, Fernet.Fernet (Base64.urlsafe_b64encode (hkdf_encrypt (encode key))) = inr f.
Proof.
  destruct (FernetFacts.Fernet_accepts (hkdf_encrypt (encode key))) as (f & Hf & _).
  - apply derive_32_length.
  - now exists f.
Qed.



(** On Cloud Run the secret manager's answer is taken as it is: start-up
    fails exactly when the secret manager raises, with its exception, and
    an empty secret is accepted as the master key. *)
Theorem startup_production (env : Environment) :
  K_SERVICE env = true ->
  (forall e, startup env = inl e <-> secret_payload env = inl e)
  /\ (secret_payload env = inr "" ->
      exists g, startup env = inr g /\ MASTER_KEY g = []).
Proof.
  intros Hk. split.
  - intros e. unfold startup, get_anchor_key. rewrite Hk.
    destruct (secret_payload env) as [e'|key].
    + split; congruence.
    + destruct (FernetFacts.Fernet_accepts (hkdf_encrypt (encode key)))
        as (f & Hf & _); [apply derive_32_length|].
      rewrite Hf. split; discriminate.
  - intros Hp. unfold startup, get_anchor_key. rewrite Hk, Hp.
    destruct (FernetFacts.Fernet_accepts (hkdf_encrypt (encode "")))
      as (f & Hf & _); [apply derive_32_length|].
    rewrite Hf. eexists. split; reflexivity.
Qed.

Lemma startup_production_witness :
  (forall e,
     startup {| K_SERVICE := true;
                ANCHOR_KEY_variable := None;
                BUCKET_NAME_variable := Some "envoy-uploads";
                secret_payload := inr "" |} = inl e
     <-> @inr Exn string "" = inl e)
  /\ (@inr Exn string "" = inr "" ->
      exists g,
        startup {| K_SERVICE := true;
                   ANCHOR_KEY_variable := None;
                   BUCKET_NAME_variable := Some "envoy-uploads";
                   secret_payload := inr "" |} = inr g
        /\ MASTER_KEY g = []).
Proof.
  exact (startup_production
           {| K_SERVICE := true;
              ANCHOR_KEY_variable := None;
              BUCKET_NAME_variable := Some "envoy-uploads";
              secret_payload := inr "" |} eq_refl).
Defined.

Lemma startup_ok (env : Environment) (key : string) :
  get_anchor_key env = inr key ->
  exists g,
    startup env = inr g
    /\ AUTH_KEY g = hkdf_auth (encode key)
    /\ List.length (AUTH_KEY g) = 32
    /\ List.length (ENCRYPTION_KEY g) = 44.
Proof.
  intros Hkey. unfold startup. rewrite Hkey.
  destruct (fernet_keys key) as (f & Hf). rewrite Hf.
  eexists. split; [reflexivity|]. cbn [AUTH_KEY ENCRYPTION_KEY].
  split; [reflexivity|]. split; [apply derive_32_length|].
  rewrite urlsafe_b64encode_length. unfold hkdf_encrypt. now rewrite derive_32_length.
Qed.



(** The two keys the process holds are never equal: one is 32 bytes long,
    the other 44. *)
Theorem auth_key_is_not_encryption_key (env : Environment) (g : Globals) :
  startup env = inr g -> AUTH_KEY g <> ENCRYPTION_KEY g.
Proof.
  intros Hs. destruct (get_anchor_key env) as [e|key] eqn:Hkey.
  - unfold startup in Hs. rewrite Hkey in Hs. discriminate.
  - destruct (startup_ok env key Hkey) as (g' & Hs' & _ & H32 & H44).
    assert (g' = g) by congruence. subst g'.
    intros Heq. rewrite Heq in H32. lia.
Qed.

Lemma auth_key_is_not_encryption_key_witness :
  exists g,
    startup (example_environment false) = inr g /\ AUTH_KEY g <> ENCRYPTION_KEY g.
Proof.
  eexists. split; [vm_compute; reflexivity|].
  apply (auth_key_is_not_encryption_key (example_environment false)).
  vm_compute. reflexivity.
Defined.

(** ** Signed requests *)

Lemma hexdigest_not_empty (key msg : bytes) : falsy (Some (HMAC.hexdigest key msg)) = false.
Proof.
  pose proof (hexdigest_length key msg) as H.
  destruct (HMAC.hexdigest key msg); [discriminate|reflexivity].
Qed.

Lemma verify_hmac_signed g request :
  verify_hmac g request (Some (HMAC.hexdigest (AUTH_KEY g) (raw_body request)))
  = ([ReadBody], inr true).
Proof.
  rewrite verify_hmac_cases, hexdigest_not_empty. cbn [header_value].
  now rewrite compare_digest_expected.
Qed.

(** The test client and a server started from the client's master key
    agree: whatever body the client signs with [generate_signature],
    [verify_hmac] reads the body once and returns [True]. *)
Theorem client_signature_accepted (env : Environment) (g : Globals) (request : Request) :
  get_anchor_key env = inr ANCHOR_KEY_MASTER ->
  startup env = inr g ->
  verify_hmac g request (Some (generate_signature (raw_body request)))
  = ([ReadBody], inr true).
Proof.
  intros Hkey Hs.
  destruct (startup_ok env ANCHOR_KEY_MASTER Hkey) as (g' & Hs' & Ha & _).
  assert (g' = g) by congruence. subst g'.
  unfold generate_signature, AUTH_KEY_DERIVED, master_key_bytes. rewrite <- Ha.
  apply verify_hmac_signed.
Qed.

Lemma client_signature_accepted_witness :
  exists g,
    startup (example_environment true) = inr g
    /\ verify_hmac g (test_invalid_signature "127.0.0.1")
         (Some (generate_signature (raw_body (test_invalid_signature "127.0.0.1"))))
       = ([ReadBody], inr true).
Proof.
  eexists. split; [vm_compute; reflexivity|].
  apply (client_signature_accepted (example_environment true)).
  - reflexivity.
  - vm_compute. reflexivity.
Defined.

(** A signature of any length other than 64 characters is never accepted:
    made of ASCII characters (and not empty, on boot-announce and
    directive-fetch) it is answered 403 whatever the key and the body.  The
    test client's signature [invalid] is one of them. *)
Theorem wrong_length_signature_rejected op g w request provided :
  x_anchor_signature_header request = Some provided ->
  is_ascii provided = true ->
  String.length provided <> 64 ->
  op = FileIngest \/ provided <> "" ->
  handle op g w request
  = ([ReadBody], {| status := 403; content := Detail "Invalid signature" |}).
Proof.
  intros Hh Ha Hlen Hop.
  assert (Hne : provided <> HMAC.hexdigest (AUTH_KEY g) (raw_body request)).
  { intros ->. now rewrite hexdigest_length in Hlen. }
  pose proof (compare_digest_mismatch (AUTH_KEY g) (raw_body request) provided Ha Hne) as C.
  destruct op.
  - destruct Hop as [|Hop]; [discriminate|].
    unfold handle. rewrite Hh, verify_hmac_cases.
    destruct provided; [congruence|]. cbn [falsy header_value]. now rewrite C.
  - destruct Hop as [|Hop]; [discriminate|].
    unfold handle. rewrite Hh, verify_hmac_cases.
    destruct provided; [congruence|]. cbn [falsy header_value]. now rewrite C.
  - rewrite (handle_ingest_signed g w request provided Hh), ingest_file_cases, C. reflexivity.
Qed.

Lemma wrong_length_signature_rejected_witness :
  exists g,
    startup (example_environment true) = inr g
    /\ handle BootAnnounce g example_world (test_invalid_signature "127.0.0.1")
       = ([ReadBody], {| status := 403; content := Detail "Invalid signature" |}).
Proof.
  eexists. split; [vm_compute; reflexivity|].
  apply wrong_length_signature_rejected with (provided := "invalid").
  - reflexivity.
  - reflexivity.
  - cbn. lia.
  - right. discriminate.
Defined.

(** ** Endpoints behind a verified signature *)

(** Directive-fetch, correctly signed, answers 200 with the directive
    [cmd_] followed by the clock's seconds; it reads the body to check the
    signature and does nothing else, whatever the body holds. *)
Theorem directive_fetch_verified g w request :
  x_anchor_signature_header request
  = Some (HMAC.hexdigest (AUTH_KEY g) (raw_body request)) ->
  handle DirectiveFetch g w request
  = ([ReadBody],
     {| status := 200; content := Directive ("cmd_" ++ string_of_Z (utcnow_timestamp w)) |}).
Proof.
  intros Hh. unfold handle. rewrite Hh, verify_hmac_signed. reflexivity.
Qed.

Lemma directive_fetch_verified_witness :
  exists g,
    startup (example_environment false) = inr g
    /\ handle DirectiveFetch g example_world
         (signed_request "127.0.0.1" (encode "{}") "application/json")
       = ([ReadBody], {| status := 200; content := Directive "cmd_1704067200" |}).
Proof.
  eexists. split; [vm_compute; reflexivity|].
  apply (directive_fetch_verified _ example_world
           (signed_request "127.0.0.1" (encode "{}") "application/json")).
  vm_compute. reflexivity.
Defined.

(** Boot-announce decodes the body as JSON only after the signature has
    verified against those bytes, and only then can it write to the
    document store. *)
Theorem boot_parses_after_verification g w request ev :
  In ev (fst (handle BootAnnounce g w request)) ->
  ev <> ReadBody ->
  x_anchor_signature_header request
  = Some (HMAC.hexdigest (AUTH_KEY g) (raw_body request)).
Proof.
  unfold handle. rewrite verify_hmac_cases.
  destruct (x_anchor_signature_header request) as [[|c s]|] eqn:Hh;
    cbn [falsy header_value].
  - intros [].
  - destruct (compare_digest _ _) as [e|[|]] eqn:C.
    + destruct e; cbn; intros [<-|[]]; congruence.
    + apply compare_digest_true_iff in C. now rewrite C.
    + cbn. intros [<-|[]]; congruence.
  - intros [].
Qed.

Lemma boot_parses_after_verification_witness :
  exists g,
    startup (example_environment false) = inr g
    /\ x_anchor_signature_header (signed_request "127.0.0.1" (encode "{}") "application/json")
       = Some (HMAC.hexdigest (AUTH_KEY g)
                 (raw_body (signed_request "127.0.0.1" (encode "{}") "application/json"))).
Proof.
  eexists. split; [vm_compute; reflexivity|].
  apply (boot_parses_after_verification _ example_world _ ReadJson).
  - vm_compute. right. left. reflexivity.
  - discriminate.
Defined.

Lemma boot_endpoint_cases g w request :
  boot_endpoint g w request =
  match json_loads w (raw_body request) with
  | inl e => ([ReadJson], inl e)
  | inr boot_data =>
      if IS_PROD_ENVIRONMENT g then
        match dict_get boot_data "device_id" (JString "unknown_device") with
        | inl e => ([ReadJson], inl e)
        | inr document =>
            match dict_get boot_data "config_version" JNull with
            | inl e => ([ReadJson], inl e)
            | inr config_version =>
                ([ReadJson;
                  DocumentSet "boots" document (utcnow_isoformat w) (client_host request)
                    config_version],
                 match document_set w "boots" document (utcnow_isoformat w)
                         (client_host request) config_version with
                 | Some e => inl e
                 | None => inr BootAck
                 end)
            end
        end
      else ([ReadJson], inr BootAck)
  end.
Proof.
  unfold boot_endpoint, lift, client_call. cbn.
  destruct (json_loads w (raw_body request)) as [e|boot_data]; [reflexivity|].
  cbn. destruct (IS_PROD_ENVIRONMENT g); [|reflexivity].
  destruct (dict_get boot_data "device_id" _) as [e|document]; [reflexivity|].
  cbn. destruct (dict_get boot_data "config_version" _) as [e|cv]; [reflexivity|].
  cbn. destruct (document_set _ _ _ _ _ _); reflexivity.
Qed.

(** Boot-announce in production: a correctly signed JSON object is
    recorded once in the collection [boots], under the object's
    [device_id], or under [unknown_device] when it has none, with the
    clock, the caller's address and the object's [config_version] (null
    when absent); the answer is the 200 acknowledgement. *)
Theorem boot_announce_production g w request members :
  IS_PROD_ENVIRONMENT g = true ->
  x_anchor_signature_header request
  = Some (HMAC.hexdigest (AUTH_KEY g) (raw_body request)) ->
  json_loads w (raw_body request) = inr (JObject members) ->
  (forall document config_version,
     document_set w "boots" document (utcnow_isoformat w) (client_host request)
       config_version = None) ->
  handle BootAnnounce g w request
  = ([ReadBody; ReadJson;
      DocumentSet "boots"
        match find (fun kv => String.eqb (fst kv) "device_id") members with
        | Some kv => snd kv
        | None => JString "unknown_device"
        end
        (utcnow_isoformat w) (client_host request)
        match find (fun kv => String.eqb (fst kv) "config_version") members with
        | Some kv => snd kv
        | None => JNull
        end],
     {| status := 200; content := BootAck |}).
Proof.
  intros Hp Hh Hj Hd. unfold handle.
  rewrite Hh, verify_hmac_signed, boot_endpoint_cases, Hj, Hp.
  unfold dict_get.
  destruct (find (fun kv => String.eqb (fst kv) "device_id") members);
    destruct (find (fun kv => String.eqb (fst kv) "config_version") members);
    cbn; rewrite Hd; reflexivity.
Qed.

Lemma boot_announce_production_witness :
  exists g,
    startup (example_environment true) = inr g
    /\ handle BootAnnounce g example_world
         (signed_request "127.0.0.1" (encode "{}") "application/json")
       = ([ReadBody; ReadJson;
           DocumentSet "boots" (JString "unknown_device") "2024-01-01T00:00:00" "127.0.0.1"
             JNull],
          {| status := 200; content := BootAck |}).
Proof.
  eexists. split; [vm_compute; reflexivity|].
  apply (boot_announce_production _ example_world
           (signed_request "127.0.0.1" (encode "{}") "application/json") []).
  - reflexivity.
  - vm_compute. reflexivity.
  - reflexivity.
  - reflexivity.
Defined.

(** Boot-announce in local mode: a correctly signed body is decoded, and
    acknowledged when it is JSON; a body the decoder rejects ends in a 500.
    Nothing is written. *)
Theorem boot_announce_local g w request :
  IS_PROD_ENVIRONMENT g = false ->
  x_anchor_signature_header request
  = Some (HMAC.hexdigest (AUTH_KEY g) (raw_body request)) ->
  (forall boot_data,
     json_loads w (raw_body request) = inr boot_data ->
     handle BootAnnounce g w request
     = ([ReadBody; ReadJson], {| status := 200; content := BootAck |}))
  /\ (forall msg,
        json_loads w (raw_body request) = inl (ClientError msg) ->
        handle BootAnnounce g w request
        = ([ReadBody; ReadJson], {| status := 500; content := InternalServerError |})).
Proof.
  intros Hp Hh. split.
  - intros boot_data Hj. unfold handle.
    rewrite Hh, verify_hmac_signed, boot_endpoint_cases, Hj, Hp. reflexivity.
  - intros msg Hj. unfold handle.
    rewrite Hh, verify_hmac_signed, boot_endpoint_cases, Hj. reflexivity.
Qed.

Lemma boot_announce_local_witness :
  exists g,
    startup (example_environment false) = inr g
    /\ handle BootAnnounce g example_world
         (signed_request "127.0.0.1" (encode "{}") "application/json")
       = ([ReadBody; ReadJson], {| status := 200; content := BootAck |}).
Proof.
  eexists. split; [vm_compute; reflexivity|].
  refine (proj1 (boot_announce_local _ example_world
                   (signed_request "127.0.0.1" (encode "{}") "application/json") _ _)
            (JObject []) eq_refl).
  - reflexivity.
  - vm_compute. reflexivity.
Defined.

(** ** External clients *)

(** In local mode no operation calls the storage client or the document
    store: whatever the request, the trace holds only reads of the body,
    the JSON decoding and the decryption. *)
Theorem local_mode_calls_no_client op g w request ev :
  IS_PROD_ENVIRONMENT g = false ->
  In ev (fst (handle op g w request)) ->
  ev = ReadBody \/ ev = ReadJson \/ ev = Decrypt (raw_body request).
Proof.
  intros Hp. destruct op.
  - unfold handle. rewrite verify_hmac_cases.
    destruct (falsy _); [intros []|].
    destruct (compare_digest _ _) as [e|[|]].
    + destruct e; cbn; intros [<-|[]]; auto.
    + rewrite boot_endpoint_cases, Hp.
      destruct (json_loads w (raw_body request)) as [e|d].
      * destruct e; cbn; intros [<-|[<-|[]]]; auto.
      * cbn. intros [<-|[<-|[]]]; auto.
    + cbn. intros [<-|[]]; auto.
  - unfold handle. rewrite verify_hmac_cases.
    destruct (falsy _); [intros []|].
    destruct (compare_digest _ _) as [e|[|]].
    + destruct e; cbn; intros [<-|[]]; auto.
    + cbn. intros [<-|[]]; auto.
    + cbn. intros [<-|[]]; auto.
  - unfold handle. destruct (x_anchor_signature_header request) as [provided|]; [|intros []].
    rewrite ingest_file_cases, Hp.
    destruct (compare_digest _ _) as [e|[|]].
    + destruct e; cbn; intros [<-|[]]; auto.
    + destruct (Fernet.decrypt _ _); cbn; intros [<-|[<-|[]]]; auto.
    + cbn. intros [<-|[]]; auto.
Qed.

Lemma local_mode_calls_no_client_witness :
  exists g request,
    startup (example_environment false) = inr g
    /\ test_ingest "127.0.0.1" 1700000000 example_iv = inr request
    /\ (Decrypt (raw_body request) = ReadBody
        \/ Decrypt (raw_body request) = ReadJson
        \/ Decrypt (raw_body request) = Decrypt (raw_body request)).
Proof.
  refine (ex_intro _ ?[g] (ex_intro _ ?[request] (conj _ (conj _
            (local_mode_calls_no_client FileIngest ?g example_world ?request
               (Decrypt (raw_body ?request)) _ _))))).
  - vm_compute. reflexivity.
  - vm_compute. reflexivity.
  - reflexivity.
  - vm_compute. right. left. reflexivity.
Defined.

(** When the storage client raises, file-ingest answers 500 with the
    client's message after ["Failed to store file: "]; the upload was tried
    once, with the ciphertext, and is not retried. *)
Theorem storage_failure_is_500 g w request plaintext e :
  IS_PROD_ENVIRONMENT g = true ->
  x_anchor_signature_header request
  = Some (HMAC.hexdigest (AUTH_KEY g) (raw_body request)) ->
  Fernet.decrypt (FERNET_INSTANCE g) (raw_body request) = inr plaintext ->
  (forall bucket name data content_type,
     upload_from_string w bucket name data content_type = Some e) ->
  snd (handle FileIngest g w request)
  = {| status := 500; content := Detail ("Failed to store file: " ++ str e) |}
  /\ uploaded (fst (handle FileIngest g w request)) = [raw_body request].
Proof.
  intros Hp Hh Hd Hu.
  rewrite (handle_ingest_signed g w request _ Hh), ingest_file_cases.
  rewrite compare_digest_expected, Hd, Hp. cbn zeta. rewrite Hu. split; reflexivity.
Qed.

Lemma storage_failure_is_500_witness :
  exists g request,
    startup (example_environment true) = inr g
    /\ test_ingest "127.0.0.1" 1700000000 example_iv = inr request
    /\ (snd (handle FileIngest g
               {| utcnow_isoformat := "2024-01-01T00:00:00";
                  utcnow_timestamp := 1704067200;
                  json_loads := fun _ => inr (JObject []);
                  upload_from_string := fun _ _ _ _ => Some (ClientError "503 Service Unavailable");
                  document_set := fun _ _ _ _ _ => None |}
               request)
        = {| status := 500;
             content := Detail ("Failed to store file: "
                                ++ str (ClientError "503 Service Unavailable")) |}
        /\ uploaded (fst (handle FileIngest g
                            {| utcnow_isoformat := "2024-01-01T00:00:00";
                               utcnow_timestamp := 1704067200;
                               json_loads := fun _ => inr (JObject []);
                               upload_from_string :=
                                 fun _ _ _ _ => Some (ClientError "503 Service Unavailable");
                               document_set := fun _ _ _ _ _ => None |}
                            request))
           = [raw_body request]).
Proof.
  eexists. eexists. split; [vm_compute; reflexivity|].
  split; [vm_compute; reflexivity|].
  eapply storage_failure_is_500 with (plaintext := plaintext_content).
  - reflexivity.
  - vm_compute. reflexivity.
  - vm_compute. reflexivity.
  - reflexivity.
Defined.

(** ** The test client against the server *)

(** [test_ingest] passes against a server started from the client's master
    key, whatever the clock and the IV of the encryption, as long as the
    storage client accepts the upload: the request is built, and the answer
    is the 200 acknowledgement naming [secret.log.enc] and the length of the
    encrypted file. *)
Theorem test_ingest_accepted env g w host current_time iv :
  get_anchor_key env = inr ANCHOR_KEY_MASTER ->
  startup env = inr g ->
  (current_time < 2 ^ 64)%N ->
  (forall bucket name data content_type,
     upload_from_string w bucket name data content_type = None) ->
  exists request gcs_path,
    test_ingest host current_time iv = inr request
    /\ snd (handle FileIngest g w request)
       = {| status := 200;
            content := IngestAck "secret.log.enc" (List.length (raw_body request)) gcs_path |}.
Proof.
  intros Hkey Hs Ht Hu.
  unfold startup in Hs. rewrite Hkey in Hs.
  destruct (fernet_keys ANCHOR_KEY_MASTER) as (f & Hf).
  change (encode ANCHOR_KEY_MASTER) with master_key_bytes in *.
  rewrite Hf in Hs. injection Hs as <-.
  destruct (FernetFacts.decrypt_encrypt f plaintext_content current_time iv Ht)
    as (token & He & Hd).
  unfold test_ingest, FERNET_INSTANCE_CLIENT, encryption_key_derived.
  rewrite Hf, He.
  set (request := {| raw_body := token;
                     x_anchor_signature_header := Some (generate_signature token);
                     content_type_header := Some "application/octet-stream";
                     filename_parameter := Some "secret.log.enc";
                     client_host := host |}).
  set (g := {| IS_PROD_ENVIRONMENT := K_SERVICE env;
               BUCKET_NAME := BUCKET_NAME_variable env;
               MASTER_KEY := master_key_bytes;
               AUTH_KEY := hkdf_auth master_key_bytes;
               ENCRYPTION_KEY := Base64.urlsafe_b64encode (hkdf_encrypt master_key_bytes);
               FERNET_INSTANCE := f |}).
  assert (H : exists gcs_path,
             snd (handle FileIngest g w request)
             = {| status := 200;
                  content := IngestAck "secret.log.enc" (List.length (raw_body request))
                               gcs_path |}).
  { rewrite (handle_ingest_signed g w request (generate_signature token) eq_refl).
    rewrite ingest_file_cases.
    cbn [AUTH_KEY FERNET_INSTANCE IS_PROD_ENVIRONMENT raw_body BUCKET_NAME
         content_type_header filename_parameter g request].
    unfold generate_signature, AUTH_KEY_DERIVED.
    rewrite compare_digest_expected, Hd.
    destruct (K_SERVICE env).
    - cbn zeta. rewrite Hu. eexists. reflexivity.
    - eexists. reflexivity. }
  destruct H as (gcs_path & H). exists request, gcs_path. split; [reflexivity|exact H].
Qed.

Lemma test_ingest_accepted_witness :
  exists g request gcs_path,
    startup (example_environment true) = inr g
    /\ test_ingest "127.0.0.1" 1700000000 example_iv = inr request
    /\ snd (handle FileIngest g example_world request)
       = {| status := 200;
            content := IngestAck "secret.log.enc" (List.length (raw_body request)) gcs_path |}.
Proof.
  assert (Hs : exists g, startup (example_environment true) = inr g).
  { eexists. vm_compute. reflexivity. }
  destruct Hs as (g & Hs).
  destruct (test_ingest_accepted (example_environment true) g example_world "127.0.0.1"
              1700000000 example_iv eq_refl Hs eq_refl (fun _ _ _ _ => eq_refl))
    as (request & gcs_path & H1 & H2).
  exists g, request, gcs_path. auto.
Defined.

(** ** More on signatures *)

(** [verify_hmac] returns [True] for exactly one header value: the hex
    HMAC-SHA256 of the raw body under the authentication key. *)
Theorem verify_hmac_accepts_iff g request provided :
  verify_hmac g request provided = ([ReadBody], inr true)
  <-> provided = Some (HMAC.hexdigest (AUTH_KEY g) (raw_body request)).
Proof.
  split.
  - rewrite verify_hmac_cases.
    destruct provided as [[|c s]|]; cbn [falsy header_value]; try discriminate.
    destruct (compare_digest _ _) as [e|[|]] eqn:C; try discriminate.
    intros _. apply compare_digest_true_iff in C. now rewrite C.
  - intros ->. apply verify_hmac_signed.
Qed.

(** What the client sends as signature is always 64 characters long and
    made of ASCII characters only, so the server's comparison never raises
    on it and never takes it for a missing header. *)
Theorem generate_signature_shape (body : bytes) :
  String.length (generate_signature body) = 64
  /\ is_ascii (generate_signature body) = true
  /\ falsy (Some (generate_signature body)) = false.
Proof.
  unfold generate_signature. split; [apply hexdigest_length|].
  split; [apply hex_ascii|apply hexdigest_not_empty].
Qed.

(** ** Truncated tokens *)

Lemma b2a_base64_not_nil (s : bytes) : s <> [] -> Base64.b2a_base64 s <> [].
Proof. destruct s as [|a [|b [|c s]]]; cbn; congruence. Qed.

Lemma removelast_cons4 (A : Type) (a b c d : A) (l : list A) :
  l <> [] -> removelast (a :: b :: c :: d :: l) = a :: b :: c :: d :: removelast l.
Proof. destruct l; [congruence|reflexivity]. Qed.

Lemma removelast_map (A B : Type) (f : A -> B) (l : list A) :
  removelast (map f l) = map f (removelast l).
Proof.
  induction l as [|a l IH]; [reflexivity|].
  destruct l as [|b l]; [reflexivity|].
  cbn [map removelast] in *. now rewrite IH.
Qed.

Lemma decode_truncated_loop (s out : bytes) :
  s <> [] ->
  Base64.a2b_loop
    (map Base64.urlsafe_decode_translation
       (map Base64.urlsafe_encode_translation (removelast (Base64.b2a_base64 s))))
    0 0 0 out
  = None.
Proof.
  revert out.
  induction s as [|a|a b|a b c s IH] using Base64Facts.list_ind3; intros out Hs.
  - congruence.
  - cbn [Base64.b2a_base64 removelast map].
    change (Base64.a2b_loop
              (Sextets.wire (Sextets.sextet1 a) :: Sextets.wire (Sextets.sextet2_last a)
                 :: x3d :: nil) 0 0 0 out = None).
    rewrite Base64Facts.a2b_loop_data by apply Base64Facts.reads_back1.
    rewrite Base64Facts.a2b_loop_data by apply Base64Facts.reads_back2_last.
    reflexivity.
  - cbn [Base64.b2a_base64 removelast map].
    change (Base64.a2b_loop
              (Sextets.wire (Sextets.sextet1 a) :: Sextets.wire (Sextets.sextet2 a b)
                 :: Sextets.wire (Sextets.sextet3_last b) :: nil) 0 0 0 out = None).
    rewrite Base64Facts.a2b_loop_data by apply Base64Facts.reads_back1.
    rewrite Base64Facts.a2b_loop_data by apply Base64Facts.reads_back2.
    rewrite Base64Facts.a2b_loop_data by apply Base64Facts.reads_back3_last.
    reflexivity.
  - destruct s as [|x s].
    + cbn [Base64.b2a_base64 removelast map].
      change (Base64.a2b_loop
                (Sextets.wire (Sextets.sextet1 a) :: Sextets.wire (Sextets.sextet2 a b)
                   :: Sextets.wire (Sextets.sextet3 b c) :: nil) 0 0 0 out = None).
      rewrite Base64Facts.a2b_loop_data by apply Base64Facts.reads_back1.
      rewrite Base64Facts.a2b_loop_data by apply Base64Facts.reads_back2.
      rewrite Base64Facts.a2b_loop_data by apply Base64Facts.reads_back3.
      reflexivity.
    + change (Base64.b2a_base64 (a :: b :: c :: x :: s))
        with (Base64.b2a_char (Sextets.sextet1 a)
              :: Base64.b2a_char (Sextets.sextet2 a b)
              :: Base64.b2a_char (Sextets.sextet3 b c)
              :: Base64.b2a_char (Sextets.sextet4 c)
              :: Base64.b2a_base64 (x :: s)).
      rewrite removelast_cons4 by (apply b2a_base64_not_nil; discriminate).
      cbn [map].
      change (Base64.a2b_loop
                (Sextets.wire (Sextets.sextet1 a) :: Sextets.wire (Sextets.sextet2 a b)
                   :: Sextets.wire (Sextets.sextet3 b c) :: Sextets.wire (Sextets.sextet4 c)
                   :: map Base64.urlsafe_decode_translation
                        (map Base64.urlsafe_encode_translation
                           (removelast (Base64.b2a_base64 (x :: s))))) 0 0 0 out = None).
      rewrite Base64Facts.a2b_loop_data by apply Base64Facts.reads_back1.
      rewrite Base64Facts.a2b_loop_data by apply Base64Facts.reads_back2.
      rewrite Base64Facts.a2b_loop_data by apply Base64Facts.reads_back3.
      rewrite Base64Facts.a2b_loop_data by apply Base64Facts.reads_back4.
      apply IH. discriminate.
Qed.

Lemma urlsafe_b64decode_truncated (s : bytes) :
  s <> [] -> Base64.urlsafe_b64decode (removelast (Base64.urlsafe_b64encode s)) = None.
Proof.
  intros Hs. unfold Base64.urlsafe_b64decode, Base64.a2b_base64, Base64.urlsafe_b64encode.
  rewrite removelast_map. now apply decode_truncated_loop.
Qed.

(** A token that lost its last byte never decrypts: the base64 decoding
    ends inside a group, and [decrypt] raises [InvalidToken].  Sent to
    file-ingest under a correct signature, it is answered 400. *)
Theorem truncated_token_rejected g w request f plaintext current_time iv token :
  Fernet.encrypt_from_parts f plaintext current_time iv = inr token ->
  raw_body request = removelast token ->
  x_anchor_signature_header request
  = Some (HMAC.hexdigest (AUTH_KEY g) (raw_body request)) ->
  Fernet.decrypt (FERNET_INSTANCE g) (removelast token) = inl InvalidToken
  /\ handle FileIngest g w request
     = ([ReadBody; Decrypt (removelast token)],
        {| status := 400; content := Detail "Invalid encrypted payload or key: " |}).
Proof.
  intros He Hb Hh.
  assert (D : forall f', Fernet.decrypt f' (removelast token) = inl InvalidToken).
  { intros f'. unfold Fernet.encrypt_from_parts in He.
    destruct (AES.blocks_of_bytes _); [|discriminate].
    destruct (2 ^ 64 <=? current_time)%N; [discriminate|].
    match type of He with
    | inr (Base64.urlsafe_b64encode ?data) = _ =>
        assert (E : token = Base64.urlsafe_b64encode data) by congruence;
        assert (Hne : data <> []) by (cbn [app]; intros Hnil; inversion Hnil)
    end.
    subst token.
    unfold Fernet.decrypt, Fernet.get_unverified_token_data.
    rewrite urlsafe_b64decode_truncated by exact Hne. reflexivity. }
  split; [apply D|].
  rewrite (handle_ingest_signed g w request _ Hh), ingest_file_cases.
  rewrite compare_digest_expected, Hb, D. reflexivity.
Qed.

Lemma truncated_token_rejected_witness :
  exists g f token,
    startup (example_environment true) = inr g
    /\ FERNET_INSTANCE_CLIENT = inr f
    /\ Fernet.encrypt_from_parts f plaintext_content 1700000000 example_iv = inr token
    /\ (Fernet.decrypt (FERNET_INSTANCE g) (removelast token) = inl InvalidToken
        /\ handle FileIngest g example_world
             (with_body (test_invalid_signature "127.0.0.1") (removelast token))
           = ([ReadBody; Decrypt (removelast token)],
              {| status := 400; content := Detail "Invalid encrypted payload or key: " |})).
Proof.
  refine (ex_intro _ ?[g] (ex_intro _ ?[f] (ex_intro _ ?[token]
            (conj _ (conj _ (conj ?[enc]
               (truncated_token_rejected ?g example_world
                  (with_body (test_invalid_signature "127.0.0.1") (removelast ?token))
                  ?f plaintext_content 1700000000 example_iv ?token ?enc _ _))))))).
  - vm_compute. reflexivity.
  - vm_compute. reflexivity.
  - vm_compute. reflexivity.
  - reflexivity.
  - vm_compute. reflexivity.
Defined.

(** ** File-ingest in production *)

(** A correctly signed body that decrypts is stored once: in the bucket
    [BUCKET_NAME], under [uploads/] then the clock's ISO time, [_] and the
    file name, with the request's content type, or
    [application/octet-stream] when the request has none; the answer names
    the file, the length of the body and the [gs://] path of the object. *)
Theorem ingest_production_success g w request plaintext filename content_type :
  IS_PROD_ENVIRONMENT g = true ->
  x_anchor_signature_header request
  = Some (HMAC.hexdigest (AUTH_KEY g) (raw_body request)) ->
  Fernet.decrypt (FERNET_INSTANCE g) (raw_body request) = inr plaintext ->
  filename = match filename_parameter request with
             | Some name => name
             | None => "uploaded.file"
             end ->
  content_type = match content_type_header request with
                 | Some v => v
                 | None => "application/octet-stream"
                 end ->
  upload_from_string w (BUCKET_NAME g) ("uploads/" ++ utcnow_isoformat w ++ "_" ++ filename)
    (raw_body request) content_type = None ->
  handle FileIngest g w request
  = ([ReadBody; Decrypt (raw_body request);
      Upload (BUCKET_NAME g) ("uploads/" ++ utcnow_isoformat w ++ "_" ++ filename)
        (raw_body request) content_type],
     {| status := 200;
        content := IngestAck filename (List.length (raw_body request))
                     ("gs://" ++ format_optional (BUCKET_NAME g) ++ "/"
                      ++ "uploads/" ++ utcnow_isoformat w ++ "_" ++ filename) |}).
Proof.
  intros Hp Hh Hd -> -> Hu.
  rewrite (handle_ingest_signed g w request _ Hh), ingest_file_cases.
  rewrite compare_digest_expected, Hd, Hp. cbn zeta. rewrite Hu. reflexivity.
Qed.

Lemma ingest_production_success_witness :
  exists g request,
    startup (example_environment true) = inr g
    /\ test_ingest "127.0.0.1" 1700000000 example_iv = inr request
    /\ handle FileIngest g example_world request
       = ([ReadBody; Decrypt (raw_body request);
           Upload (BUCKET_NAME g)
             ("uploads/" ++ utcnow_isoformat example_world ++ "_" ++ "secret.log.enc")
             (raw_body request) "application/octet-stream"],
          {| status := 200;
             content := IngestAck "secret.log.enc" (List.length (raw_body request))
                          ("gs://" ++ format_optional (BUCKET_NAME g) ++ "/"
                           ++ "uploads/" ++ utcnow_isoformat example_world ++ "_"
                           ++ "secret.log.enc") |}).
Proof.
  eexists. eexists. split; [vm_compute; reflexivity|].
  split; [vm_compute; reflexivity|].
  eapply ingest_production_success with (plaintext := plaintext_content).
  - reflexivity.
  - vm_compute. reflexivity.
  - vm_compute. reflexivity.
  - reflexivity.
  - reflexivity.
  - reflexivity.
Defined.
